(** * Group fairness metrics: [tools/fairness/bias_check.py]

    A shallow embedding of [BiasReport.from_arrays] and of the helpers it
    calls, followed by the properties of the report it builds.

    Conventions of the embedding.
    - A Python exception is a value of [exn]; code that can raise lives in
      the [result] monad and is sequenced in the order Python evaluates it.
    - A Python [float] is [NaN] or a finite number.  A finite number is kept
      as the exact rational it denotes (rounding to binary64 is not
      represented; infinities cannot arise from the quotients of counts
      computed here).
    - A label or group cell is a [value]: an integer, a string or a missing
      cell (None / NaN in a pandas column).
    - A pandas [Series] is a name and the list of its cells (the index is the
      default range index throughout); a [DataFrame] is the list of its
      columns, looked up by name.  What pandas and numpy do (naming of the
      columns of a concatenation, categories of a categorical column and
      their validation, reductions that skip NaN) is written out next to
      the operation that does it. *)

From Stdlib Require Import ZArith QArith Qminmax String Bool List Lia Permutation.
From Stdlib Require Import Ascii Sorted Lqa.
Import ListNotations.

Local Open Scope Z_scope.

(** ** Exceptions and the error monad *)

Inductive exn : Type :=
| ValueError (msg : string)
| KeyError (key : string)
| ZeroDivisionError.

Inductive result (A : Type) : Type :=
| Ok (a : A)
| Raise (e : exn).

Arguments Ok {A} a.
Arguments Raise {A} e.

Definition bind {A B : Type} (m : result A) (k : A -> result B) : result B :=
  match m with
  | Ok a => k a
  | Raise e => Raise e
  end.

Notation "x <- m ;; k" := (bind m (fun x => k))
  (at level 61, m at next level, right associativity).

Definition raises {A : Type} (m : result A) : Prop :=
  exists e, m = Raise e.

Definition returns {A : Type} (m : result A) : Prop :=
  exists a, m = Ok a.

(** ** Floats *)

Inductive float : Type :=
| NaN
| Fin (q : Q).

(** The integers [float(n)] converts: those that round to a float, that
    is, below [2^1024 - 2^970] in absolute value.  On any other one Python
    raises [OverflowError]. *)
Definition float_limit : Z := 2 ^ 1024 - 2 ^ 970.

Definition in_float_range (z : Z) : Prop := Z.abs z < float_limit.

(** [float(n)] on an integer in the range of floats, as the counts of
    rows converted in this module are. *)
Definition float_of_Z (z : Z) : float := Fin (inject_Z z).

Definition is_nan (f : float) : bool :=
  match f with
  | NaN => true
  | Fin _ => false
  end.

(** [a != 0]: true for NaN, as every comparison [!=] with NaN is. *)
Definition fne0 (a : float) : bool :=
  match a with
  | NaN => true
  | Fin q => negb (Qeq_bool q 0)
  end.

(** [a >= b] and [a > b]: false as soon as one side is NaN. *)
Definition fge (a b : float) : bool :=
  match a, b with
  | Fin x, Fin y => Qle_bool y x
  | _, _ => false
  end.

Definition fgt (a b : float) : bool :=
  match a, b with
  | Fin x, Fin y => negb (Qle_bool x y)
  | _, _ => false
  end.

(** Python's [a / b] on floats: a zero divisor raises. *)
Definition fdiv (a b : float) : result float :=
  match b with
  | NaN => Ok NaN
  | Fin y =>
      if Qeq_bool y 0 then Raise ZeroDivisionError
      else match a with
           | NaN => Ok NaN
           | Fin x => Ok (Fin (x / y))
           end
  end.

Definition fsub (a b : float) : float :=
  match a, b with
  | Fin x, Fin y => Fin (x - y)
  | _, _ => NaN
  end.

Definition fadd (a b : float) : float :=
  match a, b with
  | Fin x, Fin y => Fin (x + y)
  | _, _ => NaN
  end.

(** The builtin [max(a, b)]: [b] if [b > a], else [a]. *)
Definition py_max (a b : float) : float :=
  if fgt b a then b else a.

(** Equality of floats as numbers; NaN equals nothing. *)
Definition feq (a b : float) : Prop :=
  match a, b with
  | Fin x, Fin y => (x == y)%Q
  | _, _ => False
  end.

(** [f] is a number of the closed interval [lo, hi]. *)
Definition in_range (lo hi : Q) (f : float) : Prop :=
  match f with
  | NaN => False
  | Fin q => (lo <= q /\ q <= hi)%Q
  end.

Fixpoint finite_vals (vals : list float) : list Q :=
  match vals with
  | [] => []
  | NaN :: rest => finite_vals rest
  | Fin q :: rest => q :: finite_vals rest
  end.

Definition zero_size : exn :=
  ValueError "zero-size array to reduction operation which has no identity".

(** [np.nanmax] and [np.nanmin]: NaN cells are skipped; an array of NaN only
    gives NaN (with a warning); an empty array raises. *)
Definition nanmax (vals : list float) : result float :=
  match vals with
  | [] => Raise zero_size
  | _ :: _ =>
      match finite_vals vals with
      | [] => Ok NaN
      | q :: qs => Ok (Fin (fold_left Qmax qs q))
      end
  end.

Definition nanmin (vals : list float) : result float :=
  match vals with
  | [] => Raise zero_size
  | _ :: _ =>
      match finite_vals vals with
      | [] => Ok NaN
      | q :: qs => Ok (Fin (fold_left Qmin qs q))
      end
  end.

(** ** Helpers *)

Definition _safe_div (n d : float) : result float :=
  if fne0 d then fdiv n d else Ok NaN.

(** ** Cells, series and frames *)

Inductive value : Type :=
| VInt (z : Z)
| VStr (s : string)
| VNA.

Definition value_eq_dec (a b : value) : {a = b} + {a <> b}.
Proof.
  decide equality.
  - apply Z.eq_dec.
  - apply string_dec.
Defined.

(** Elementwise [==]: a missing cell equals nothing. *)
Definition value_eqb (a b : value) : bool :=
  match a, b with
  | VInt x, VInt y => x =? y
  | VStr x, VStr y => String.eqb x y
  | _, _ => false
  end.

Definition notna (v : value) : bool :=
  match v with
  | VNA => false
  | _ => true
  end.

Definition isna (v : value) : bool := negb (notna v).

Definition mem (v : value) (l : list value) : bool :=
  existsb (value_eqb v) l.

Record Series (A : Type) : Type := mkSeries {
  name : string;
  values : list A
}.

Arguments mkSeries {A} name values.
Arguments name {A} s.
Arguments values {A} s.

Definition _as_series (x : list value) (nm : string) : Series value :=
  mkSeries nm x.

Definition len {A : Type} (s : Series A) : nat := length (values s).

Definition smap {A B : Type} (f : A -> B) (s : Series A) : Series B :=
  mkSeries (name s) (map f (values s)).

(** [s >= t] and [s == v]: the result keeps the name of [s]. *)
Definition series_ge (s : Series float) (t : float) : Series bool :=
  smap (fun x => fge x t) s.

Definition series_eq (s : Series value) (v : value) : Series bool :=
  smap (fun x => value_eqb x v) s.

Definition series_eqz (s : Series Z) (k : Z) : Series bool :=
  smap (fun x => x =? k) s.

Definition series_notna (s : Series value) : Series bool :=
  smap notna s.

Definition astype_int (s : Series bool) : Series Z :=
  smap Z.b2z s.

(** An integer column seen as a column of cells. *)
Definition as_cells (s : Series Z) : Series value :=
  smap VInt s.

Fixpoint zip_and (a b : list bool) : list bool :=
  match a, b with
  | x :: a', y :: b' => (x && y) :: zip_and a' b'
  | _, _ => []
  end.

(** [a & b] *)
Definition series_and (a b : Series bool) : Series bool :=
  mkSeries (name a) (zip_and (values a) (values b)).

Fixpoint bsum (l : list bool) : Z :=
  match l with
  | [] => 0
  | b :: rest => Z.b2z b + bsum rest
  end.

Fixpoint zsum (l : list Z) : Z :=
  match l with
  | [] => 0
  | z :: rest => z + zsum rest
  end.

(** Boolean-mask selection [s[mask]]. *)
Fixpoint select {A : Type} (l : list A) (mask : list bool) : list A :=
  match l, mask with
  | x :: l', b :: mask' => if b then x :: select l' mask' else select l' mask'
  | _, _ => []
  end.

Definition series_select {A : Type} (s : Series A) (mask : Series bool)
  : Series A :=
  mkSeries (name s) (select (values s) (values mask)).

Definition DataFrame : Type := list (Series value).

(** [pd.concat(cols, axis=1)]: the columns are named after the series. *)
Definition concat (cols : list (Series value)) : DataFrame := cols.

(** [df[key]] *)
Fixpoint getitem (df : DataFrame) (key : string) : result (Series value) :=
  match df with
  | [] => Raise (KeyError key)
  | col :: rest => if String.eqb (name col) key then Ok col else getitem rest key
  end.

(** [df[mask]] *)
Definition frame_select (df : DataFrame) (mask : Series bool) : DataFrame :=
  map (fun col => series_select col mask) df.

(** [len(df)] *)
Definition frame_len (df : DataFrame) : nat :=
  match df with
  | [] => O
  | col :: _ => len col
  end.

(** ** Categorical columns *)

(** The order pandas sorts categories in: integers by value, then strings
    by code point. *)
Definition value_leb (a b : value) : bool :=
  match a, b with
  | VInt x, VInt y => x <=? y
  | VInt _, _ => true
  | VStr _, VInt _ => false
  | VStr x, VStr y => String.leb x y
  | VStr _, VNA => true
  | VNA, VNA => true
  | VNA, _ => false
  end.

Fixpoint insert_sorted (v : value) (l : list value) : list value :=
  match l with
  | [] => [v]
  | w :: rest => if value_leb v w then v :: l else w :: insert_sorted v rest
  end.

Fixpoint sort_values (l : list value) : list value :=
  match l with
  | [] => []
  | v :: rest => insert_sorted v (sort_values rest)
  end.

(** Is the list free of repetitions? *)
Fixpoint is_unique (l : list value) : bool :=
  match l with
  | [] => true
  | v :: rest => negb (mem v rest) && is_unique rest
  end.

(** A categorical column: its categories, and the cells, where a cell
    outside the categories is missing. *)
Record Categorical : Type := mkCategorical {
  categories : list value;
  cells : Series value
}.

(** [s.astype("category")]: the categories are the distinct cells that are
    not missing, sorted. *)
Definition astype_category (s : Series value) : Categorical :=
  mkCategorical
    (sort_values (nodup value_eq_dec (filter notna (values s))))
    s.

(** [g.cat.set_categories(new, ordered=True)]: pandas refuses categories
    that hold a missing value or a repetition; cells outside the new
    categories become missing. *)
Definition set_categories (g : Categorical) (new : list value)
  : result Categorical :=
  if existsb isna new then
    Raise (ValueError "Categorical categories cannot be null")
  else if negb (is_unique new) then
    Raise (ValueError "Categorical categories must be unique")
  else
    Ok (mkCategorical new
          (smap (fun v => if mem v new then v else VNA) (cells g))).

(** [g == grp] *)
Definition cat_eq (g : Categorical) (grp : value) : Series bool :=
  series_eq (cells g) grp.

(** ** Core per-group metrics *)

Record GroupMetrics : Type := mkGroupMetrics {
  group : value;
  count : Z;
  positive_rate : float;
  tpr : float;
  fpr : float;
  ppv : float;
  tnr : float;
  fnr : float
}.

Record SummaryMetrics : Type := mkSummaryMetrics {
  demographic_parity_difference : float;
  disparate_impact_ratio : float;
  equal_opportunity_difference : float;
  equalized_odds_difference : float;
  predictive_parity_difference : float
}.

Record Metadata : Type := mkMetadata {
  n_samples : Z;
  n_groups : Z;
  meta_positive_label : value
}.

Record BiasReport : Type := mkBiasReport {
  by_group : list GroupMetrics;
  summary : SummaryMetrics;
  metadata : Metadata
}.

(** The confusion counts of one group: [tp], [fp], [tn], [fn]. *)
Definition confusion (yp yt : Series Z) (p t : Z) : Z :=
  bsum (values (series_and (series_eqz yp p) (series_eqz yt t))).

(** The body of the loop over the groups, once [n <> 0] is known. *)
Definition group_metrics (grp : value) (n : Z) (yt yp : Series Z)
  : result GroupMetrics :=
  pos_rate <- _safe_div (float_of_Z (zsum (values yp))) (float_of_Z n) ;;
  let tp := confusion yp yt 1 1 in
  let fp := confusion yp yt 1 0 in
  let tn := confusion yp yt 0 0 in
  let fn := confusion yp yt 0 1 in
  tpr <- _safe_div (float_of_Z tp) (float_of_Z (tp + fn)) ;;
  fpr <- _safe_div (float_of_Z fp) (float_of_Z (fp + tn)) ;;
  ppv <- _safe_div (float_of_Z tp) (float_of_Z (tp + fp)) ;;
  tnr <- _safe_div (float_of_Z tn) (float_of_Z (tn + fp)) ;;
  fnr <- _safe_div (float_of_Z fn) (float_of_Z (fn + tp)) ;;
  Ok (mkGroupMetrics grp n pos_rate tpr fpr ppv tnr fnr).

(** [for grp in groups: ...]; the result is [by_group]. *)
Fixpoint group_loop (g : Categorical) (y yhat : Series Z)
    (groups : list value) : result (list GroupMetrics) :=
  match groups with
  | [] => Ok []
  | grp :: rest =>
      let mask := cat_eq g grp in
      let n := bsum (values mask) in
      if n =? 0 then group_loop g y yhat rest
      else
        let yt := series_select y mask in
        let yp := series_select yhat mask in
        m <- group_metrics grp n yt yp ;;
        ms <- group_loop g y yhat rest ;;
        Ok (m :: ms)
  end.

(** ** Summary metrics across groups *)

Definition span (metric : GroupMetrics -> float) (by_group : list GroupMetrics)
  : result float :=
  let vals := map metric by_group in
  if (length vals =? 0)%nat then Ok NaN
  else
    mx <- nanmax vals ;;
    mn <- nanmin vals ;;
    Ok (fsub mx mn).

Definition di_ratio (by_group : list GroupMetrics) : result float :=
  let vals := map positive_rate by_group in
  if (length vals =? 0)%nat then Ok NaN
  else
    mx <- nanmax vals ;;
    mn <- nanmin vals ;;
    _safe_div mn mx.

(** ** Construction of the report *)

Definition no_prediction : exn :=
  ValueError "Provide either y_pred, or y_score+threshold.".

Definition length_mismatch : exn :=
  ValueError "y_true, y_pred/y_score, and sensitive must have the same length".

Definition from_arrays
    (y_true : list value) (y_pred : option (list value))
    (sensitive : list value)
    (y_score : option (list float)) (threshold : option float)
    (positive_label : value) (group_order : option (list value))
    (dropna_groups : bool) : result BiasReport :=
  let y_true := _as_series y_true "y_true" in
  y_pred <-
    match y_pred with
    | None =>
        match y_score, threshold with
        | Some scores, Some t =>
            Ok (as_cells (astype_int (series_ge (mkSeries "y_score" scores) t)))
        | _, _ => Raise no_prediction
        end
    | Some p => Ok (_as_series p "y_pred")
    end ;;
  let sensitive := _as_series sensitive "sensitive" in
  if negb (len y_true =? len y_pred)%nat
     || negb (len y_true =? len sensitive)%nat
  then Raise length_mismatch
  else
    let df := concat [y_true; y_pred; sensitive] in
    df <-
      (if dropna_groups then
         s <- getitem df "sensitive" ;;
         Ok (frame_select df (series_notna s))
       else Ok df) ;;
    (* Normalize to binary 0/1 wrt positive_label *)
    yt <- getitem df "y_true" ;;
    let y := astype_int (series_eq yt positive_label) in
    yp <- getitem df "y_pred" ;;
    let yhat := astype_int (series_eq yp positive_label) in
    gs <- getitem df "sensitive" ;;
    let g := astype_category gs in
    g <-
      match group_order with
      | Some order => set_categories g order
      | None => Ok g
      end ;;
    let groups := categories g in
    by_group <- group_loop g y yhat groups ;;
    (* Equalized odds: take the worse of TPR span and FPR span. *)
    tpr_span <- span tpr by_group ;;
    fpr_span <- span fpr by_group ;;
    let eod := py_max tpr_span fpr_span in
    dpd <- span positive_rate by_group ;;
    dir <- di_ratio by_group ;;
    eop <- span tpr by_group ;;
    ppd <- span ppv by_group ;;
    let summary := mkSummaryMetrics dpd dir eop eod ppd in
    let meta :=
      mkMetadata (Z.of_nat (frame_len df)) (Z.of_nat (length by_group))
        positive_label in
    Ok (mkBiasReport by_group summary meta).

(** The call of the module's docstring and of its test. *)
Definition ex_true : list value := map VInt [0; 1; 1; 0; 1; 0; 1; 0].

Definition ex_pred : list value := map VInt [0; 1; 0; 0; 1; 0; 1; 1].

Definition ex_sensitive : list value :=
  map VStr ["A"; "A"; "B"; "B"; "A"; "B"; "A"; "B"]%string.

Definition docstring_report : result BiasReport :=
  from_arrays ex_true (Some ex_pred) ex_sensitive None None (VInt 1) None false.

(** * Specification-level definitions

    What the functions above return, and the reading of the frame as a list
    of samples; the properties below relate them to the code. *)

(** ** What the code returns *)

(** The quotient of two counts, as the specification words it: undefined
    for a zero denominator, the quotient otherwise. *)
Definition ratio (n d : Z) : float :=
  if d =? 0 then NaN else Fin (inject_Z n / inject_Z d).

(** What [group_metrics] returns. *)
Definition metrics_of (grp : value) (n : Z) (yt yp : Series Z) : GroupMetrics :=
  let tp := confusion yp yt 1 1 in
  let fp := confusion yp yt 1 0 in
  let tn := confusion yp yt 0 0 in
  let fn := confusion yp yt 0 1 in
  mkGroupMetrics grp n
    (ratio (zsum (values yp)) n)
    (ratio tp (tp + fn)) (ratio fp (fp + tn)) (ratio tp (tp + fp))
    (ratio tn (tn + fp)) (ratio fn (fn + tp)).

(** What [group_loop] returns. *)
Fixpoint groups_of (g : Categorical) (y yhat : Series Z)
    (groups : list value) : list GroupMetrics :=
  match groups with
  | [] => []
  | grp :: rest =>
      let mask := cat_eq g grp in
      let n := bsum (values mask) in
      if n =? 0 then groups_of g y yhat rest
      else metrics_of grp n (series_select y mask) (series_select yhat mask)
             :: groups_of g y yhat rest
  end.

Definition span_of (metric : GroupMetrics -> float)
    (by_group : list GroupMetrics) : float :=
  match finite_vals (map metric by_group) with
  | [] => NaN
  | q :: qs => Fin (fold_left Qmax qs q - fold_left Qmin qs q)
  end.

Definition di_ratio_of (by_group : list GroupMetrics) : float :=
  match finite_vals (map positive_rate by_group) with
  | [] => NaN
  | q :: qs =>
      if Qeq_bool (fold_left Qmax qs q) 0 then NaN
      else Fin (fold_left Qmin qs q / fold_left Qmax qs q)
  end.

(** The categorical column of the groups. *)
Definition grouping (group_order : option (list value)) (s : Series value)
  : result Categorical :=
  match group_order with
  | Some order => set_categories (astype_category s) order
  | None => Ok (astype_category s)
  end.

(** The frame after the optional removal of the rows without a group. *)
Definition rows_of {A : Type} (dropna_groups : bool) (sensitive : list value)
    (column : list A) : list A :=
  if dropna_groups then select column (map notna sensitive) else column.

(** The summary of a list of entries. *)
Definition summary_of (by_group : list GroupMetrics) : SummaryMetrics :=
  mkSummaryMetrics
    (span_of positive_rate by_group)
    (di_ratio_of by_group)
    (span_of tpr by_group)
    (py_max (span_of tpr by_group) (span_of fpr by_group))
    (span_of ppv by_group).

(** The report, from the categorical column and the normalized labels. *)
Definition report_of (g : Categorical) (y yhat : Series Z) (rows : nat)
    (positive_label : value) : BiasReport :=
  let by_group := groups_of g y yhat (categories g) in
  mkBiasReport by_group (summary_of by_group)
    (mkMetadata (Z.of_nat rows) (Z.of_nat (length by_group)) positive_label).

Definition normalized (nm : string) (positive_label : value)
    (column : list value) : Series Z :=
  astype_int (series_eq (mkSeries nm column) positive_label).

(** When [grouping] returns, and what. *)
Definition valid_order (group_order : option (list value)) : bool :=
  match group_order with
  | Some order => negb (existsb isna order) && is_unique order
  | None => true
  end.

(** The cell of the categorical column for a cell of [sensitive]. *)
Definition cell_of (group_order : option (list value)) (v : value) : value :=
  match group_order with
  | Some order => if mem v order then v else VNA
  | None => v
  end.

(** The categories of the column. *)
Definition categories_of (group_order : option (list value))
    (column : list value) : list value :=
  match group_order with
  | Some order => order
  | None => sort_values (nodup value_eq_dec (filter notna column))
  end.

(** ** Samples

    The rows of the frame, read as the specification does: one sample is a
    truth label, a predicted label and a group label. *)

Definition sample : Type := (value * value * value)%type.

Definition s_true (r : sample) : value := fst (fst r).
Definition s_pred (r : sample) : value := snd (fst r).
Definition s_group (r : sample) : value := snd r.

Fixpoint zip3 (a b c : list value) : list sample :=
  match a, b, c with
  | x :: a', y :: b', z :: c' => (x, y, z) :: zip3 a' b' c'
  | _, _, _ => []
  end.

(** The samples of the frame, after the optional removal of those without
    a group. *)
Definition samples (dropna_groups : bool) (y_true y_pred sensitive : list value)
  : list sample :=
  let rows := zip3 y_true y_pred sensitive in
  if dropna_groups then filter (fun r => notna (s_group r)) rows else rows.

(** Normalized truth and prediction of a sample. *)
Definition truth_pos (positive_label : value) (r : sample) : bool :=
  value_eqb (s_true r) positive_label.

Definition pred_pos (positive_label : value) (r : sample) : bool :=
  value_eqb (s_pred r) positive_label.

(** The samples counted in the entry of group [grp]. *)
Definition members (group_order : option (list value)) (grp : value)
    (rows : list sample) : list sample :=
  filter (fun r => value_eqb (cell_of group_order (s_group r)) grp) rows.

Definition count_if (p : sample -> bool) (ms : list sample) : Z :=
  Z.of_nat (length (filter p ms)).

(** The entry of group [grp], whose samples are [ms]. *)
Definition entry_of (positive_label grp : value) (ms : list sample)
  : GroupMetrics :=
  let truth := truth_pos positive_label in
  let pred := pred_pos positive_label in
  let tp := count_if (fun r => pred r && truth r) ms in
  let fp := count_if (fun r => pred r && negb (truth r)) ms in
  let tn := count_if (fun r => negb (pred r) && negb (truth r)) ms in
  let fn := count_if (fun r => negb (pred r) && truth r) ms in
  let n := Z.of_nat (length ms) in
  mkGroupMetrics grp n
    (ratio (count_if pred ms) n)
    (ratio tp (tp + fn)) (ratio fp (fp + tn)) (ratio tp (tp + fp))
    (ratio tn (tn + fp)) (ratio fn (fn + tp)).

(** The entries of the groups that have a sample, in the order of
    [groups]. *)
Fixpoint group_table (group_order : option (list value))
    (positive_label : value) (rows : list sample) (groups : list value)
  : list GroupMetrics :=
  match groups with
  | [] => []
  | grp :: rest =>
      match members group_order grp rows with
      | [] => group_table group_order positive_label rows rest
      | ms => entry_of positive_label grp ms
              :: group_table group_order positive_label rows rest
      end
  end.

Definition table_of (group_order : option (list value))
    (positive_label : value) (rows : list sample) : list GroupMetrics :=
  group_table group_order positive_label rows
    (categories_of group_order (map s_group rows)).

Definition report_of_samples (group_order : option (list value))
    (positive_label : value) (rows : list sample) : BiasReport :=
  let by_group := table_of group_order positive_label rows in
  mkBiasReport by_group (summary_of by_group)
    (mkMetadata (Z.of_nat (length rows)) (Z.of_nat (length by_group))
       positive_label).

(** ** The vocabulary of the properties *)

(** A rate is not-a-number or a proportion. *)
Definition rate_ok (f : float) : Prop := f = NaN \/ in_range 0 1 f.

Definition rates_ok (m : GroupMetrics) : Prop :=
  rate_ok (positive_rate m) /\ rate_ok (tpr m) /\ rate_ok (fpr m) /\
  rate_ok (ppv m) /\ rate_ok (tnr m) /\ rate_ok (fnr m).

(** The inputs the specification calls invalid: no prediction source, or
    sequences of different lengths. *)
Definition no_source (y_pred : option (list value))
    (y_score : option (list float)) (threshold : option float) : Prop :=
  y_pred = None /\ (y_score = None \/ threshold = None).

Definition lengths_differ (y_true : list value) (y_pred : option (list value))
    (sensitive : list value) (y_score : option (list float)) : Prop :=
  match y_pred, y_score with
  | Some p, _ =>
      length y_true <> length p \/ length y_true <> length sensitive
  | None, Some scores =>
      length y_true <> length scores \/ length y_true <> length sensitive
  | None, None => length y_true <> length sensitive
  end.

(** The number of rows dropped for a missing group. *)
Definition dropped (dropna_groups : bool) (sensitive : list value) : nat :=
  if dropna_groups then length (filter isna sensitive) else O.

(** The group column after the optional removal of the missing cells. *)
Definition kept_groups (dropna_groups : bool) (sensitive : list value)
  : list value :=
  if dropna_groups then filter notna sensitive else sensitive.

(** The number of distinct groups that have a row in a column. *)
Definition distinct_groups (column : list value) : nat :=
  length (nodup value_eq_dec (filter notna column)).

(** Is the group listed in the explicit order, if there is one? *)
Definition in_order (group_order : option (list value)) (v : value) : bool :=
  match group_order with
  | Some order => mem v order
  | None => true
  end.

(** Does the group have a sample? *)
Definition has_rows (group_order : option (list value)) (rows : list sample)
    (grp : value) : bool :=
  existsb (fun r => value_eqb (cell_of group_order (s_group r)) grp) rows.

(** Is the group of the sample listed in [order]? *)
Definition listed (order : list value) (r : sample) : bool :=
  mem (s_group r) order.

(** Is [x] one of [gs]? *)
Definition one_of (gs : list value) (x : value) : bool :=
  if in_dec value_eq_dec x gs then true else false.

(** What the entry of a group becomes when the two labels trade places. *)
Definition mirrored (m m' : GroupMetrics) : Prop :=
  group m' = group m /\ count m' = count m /\
  tpr m' = tnr m /\ tnr m' = tpr m /\
  fpr m' = fnr m /\ fnr m' = fpr m.

(** The rates of an entry are quotients of its four confusion counts. *)
Definition quotients_of (tp fp tn fn : Z) (m : GroupMetrics) : Prop :=
  0 <= tp /\ 0 <= fp /\ 0 <= tn /\ 0 <= fn /\
  count m = tp + fp + tn + fn /\
  positive_rate m = ratio (tp + fp) (count m) /\
  tpr m = ratio tp (tp + fn) /\
  fpr m = ratio fp (fp + tn) /\
  ppv m = ratio tp (tp + fp) /\
  tnr m = ratio tn (tn + fp) /\
  fnr m = ratio fn (fn + tp).

(** ** Serialization and display *)

(** A value of a dictionary built by [as_dict]. *)
Inductive pyobj : Type :=
| PyCell (v : value)
| PyInt (z : Z)
| PyFloat (f : float).

(** [GroupMetrics.as_dict] *)
Definition GroupMetrics_as_dict (self : GroupMetrics)
  : list (string * pyobj) :=
  [ ("group", PyCell (group self));
    ("count", PyInt (count self));
    ("selection_rate", PyFloat (positive_rate self));
    ("tpr", PyFloat (tpr self));
    ("fpr", PyFloat (fpr self));
    ("ppv", PyFloat (ppv self));
    ("tnr", PyFloat (tnr self));
    ("fnr", PyFloat (fnr self)) ]%string.

(** [SummaryMetrics.as_dict]; its values are floats. *)
Definition SummaryMetrics_as_dict (self : SummaryMetrics)
  : list (string * float) :=
  [ ("demographic_parity_difference", demographic_parity_difference self);
    ("disparate_impact_ratio", disparate_impact_ratio self);
    ("equal_opportunity_difference", equal_opportunity_difference self);
    ("equalized_odds_difference", equalized_odds_difference self);
    ("predictive_parity_difference", predictive_parity_difference self)
  ]%string.

(** [d[key]] on a dictionary. *)
Fixpoint dict_getitem {V : Type} (d : list (string * V)) (key : string)
  : result V :=
  match d with
  | [] => Raise (KeyError key)
  | (k, v) :: rest => if String.eqb k key then Ok v else dict_getitem rest key
  end.

(** The columns of [pd.DataFrame(rows)]: the keys of the rows. *)
Definition frame_columns (rows : list (list (string * pyobj))) : list string :=
  nodup string_dec (flat_map (map fst) rows).

(** [df[cols]] on the frame of [rows]: a column the frame does not have
    raises; a cell a row does not have is NaN. *)
Definition frame_getitem (rows : list (list (string * pyobj)))
    (columns : list string) : result (list (list pyobj)) :=
  match filter (fun c => negb (existsb (String.eqb c) (frame_columns rows)))
          columns with
  | [] =>
      Ok (map (fun row =>
                 map (fun c =>
                        match dict_getitem row c with
                        | Ok v => v
                        | Raise _ => PyFloat NaN
                        end) columns) rows)
  | missing :: _ => Raise (KeyError missing)
  end.

(** The line feed. *)
Definition nl : string := String (ascii_of_nat 10) EmptyString.

Section Display.

(** The renderings that belong to pandas and to Python's formatting:
    [df.to_string(index=False, float_format=...)] on the selected columns,
    the format [.4f] of a number, and the text of the metadata
    dictionary. *)
Variable to_string : list string -> list (list pyobj) -> string.
Variable format_4f : Q -> string.
Variable str_metadata : Metadata -> string.

(** One line of the summary: a number to four decimals, NaN as it
    prints. *)
Definition summary_line (kv : string * float) : string :=
  match snd kv with
  | Fin q => ("  - " ++ fst kv ++ ": " ++ format_4f q)%string
  | NaN => ("  - " ++ fst kv ++ ": nan")%string
  end.

(** [BiasReport.to_pretty] *)
Definition to_pretty (self : BiasReport) : result string :=
  let rows := map GroupMetrics_as_dict (by_group self) in
  match rows with
  | [] => Ok "<no groups>"%string
  | _ :: _ =>
      (* Order columns for readability *)
      let cols :=
        ["group"; "count"; "selection_rate"; "tpr"; "fpr"; "ppv"; "tnr";
         "fnr"]%string in
      df <- frame_getitem rows cols ;;
      let table := to_string cols df in
      let summ := SummaryMetrics_as_dict (summary self) in
      let summ_lines := String.concat nl (map summary_line summ) in
      Ok ("Group metrics:" ++ nl ++ table ++
          nl ++ nl ++ "Summary metrics:" ++ nl ++ summ_lines ++
          nl ++ nl ++ "(metadata: " ++ str_metadata (metadata self) ++ ")"
         )%string
  end.

End Display.

(** * Properties *)

(** ** The error monad *)

Lemma bind_Ok {A B : Type} (m : result A) (k : A -> result B) (b : B) :
  bind m k = Ok b -> exists a, m = Ok a /\ k a = Ok b.
Proof.
  destruct m as [a | e]; simpl; intros H.
  - exists a. split; [reflexivity | exact H].
  - discriminate H.
Qed.

Lemma result_cases {A : Type} (m : result A) : returns m \/ raises m.
Proof.
  destruct m as [a | e].
  - left. exists a. reflexivity.
  - right. exists e. reflexivity.
Qed.

Lemma raises_not_returns {A : Type} (m : result A) : raises m -> ~ returns m.
Proof.
  intros [e He] [a Ha]. rewrite He in Ha. discriminate Ha.
Qed.

(** ** Ratios *)

Lemma inject_Z_eq0 (d : Z) : Qeq_bool (inject_Z d) 0 = (d =? 0).
Proof.
  unfold Qeq_bool, inject_Z. simpl. rewrite Z.mul_1_r. reflexivity.
Qed.

Lemma fne0_false (d : float) : fne0 d = false <-> feq d (Fin 0).
Proof.
  destruct d as [| q]; cbn [fne0 feq].
  - split; [discriminate | intros []].
  - rewrite negb_false_iff. apply Qeq_bool_iff.
Qed.

Lemma _safe_div_returns (n d : float) : returns (_safe_div n d).
Proof.
  unfold returns, _safe_div, fne0, fdiv.
  destruct d as [| y].
  - exists NaN. reflexivity.
  - destruct (Qeq_bool y 0); simpl.
    + exists NaN. reflexivity.
    + destruct n as [| x]; eexists; reflexivity.
Qed.

Lemma _safe_div_counts (n d : Z) :
  _safe_div (float_of_Z n) (float_of_Z d) = Ok (ratio n d).
Proof.
  unfold _safe_div, fne0, fdiv, float_of_Z, ratio.
  rewrite inject_Z_eq0. destruct (d =? 0); reflexivity.
Qed.

Lemma ratio_range (n d : Z) :
  0 <= n <= d -> ratio n d = NaN \/ in_range 0 1 (ratio n d).
Proof.
  intros [Hn Hd]. unfold ratio.
  destruct (d =? 0) eqn:E; [left; reflexivity | right].
  apply Z.eqb_neq in E. simpl.
  assert (Hpos : (0 < inject_Z d)%Q).
  { replace 0%Q with (inject_Z 0) by reflexivity. rewrite <- Zlt_Qlt. lia. }
  split.
  - apply Qle_shift_div_l; [exact Hpos |].
    rewrite Qmult_0_l. replace 0%Q with (inject_Z 0) by reflexivity.
    rewrite <- Zle_Qle. exact Hn.
  - apply Qle_shift_div_r; [exact Hpos |].
    rewrite Qmult_1_l. rewrite <- Zle_Qle. exact Hd.
Qed.

Lemma ratio_complement (a b : Z) :
  a + b <> 0 -> feq (fadd (ratio a (a + b)) (ratio b (b + a))) (Fin 1).
Proof.
  intros H. unfold ratio.
  replace (b + a) with (a + b) by lia.
  destruct (a + b =? 0) eqn:E; [apply Z.eqb_eq in E; contradiction |].
  simpl. rewrite inject_Z_plus.
  assert (Hne : ~ (inject_Z a + inject_Z b == 0)%Q).
  { rewrite <- inject_Z_plus. intros Hq.
    change 0%Q with (inject_Z 0) in Hq.
    exact (H (proj1 (inject_Z_injective _ _) Hq)). }
  field. exact Hne.
Qed.

(** ** The loop over the groups never raises *)

Lemma group_metrics_returns (grp : value) (n : Z) (yt yp : Series Z) :
  group_metrics grp n yt yp = Ok (metrics_of grp n yt yp).
Proof.
  unfold group_metrics, metrics_of.
  repeat (rewrite _safe_div_counts; simpl bind).
  reflexivity.
Qed.

Lemma group_loop_returns (g : Categorical) (y yhat : Series Z)
    (groups : list value) :
  group_loop g y yhat groups = Ok (groups_of g y yhat groups).
Proof.
  induction groups as [| grp rest IH]; simpl.
  - reflexivity.
  - destruct (bsum _ =? 0).
    + exact IH.
    + rewrite group_metrics_returns, IH. reflexivity.
Qed.

(** ** The summary never raises *)

Lemma span_returns (metric : GroupMetrics -> float)
    (by_group : list GroupMetrics) :
  span metric by_group = Ok (span_of metric by_group).
Proof.
  unfold span, span_of, nanmax, nanmin.
  destruct by_group as [| m ms]; simpl.
  - reflexivity.
  - destruct (metric m); simpl.
    + destruct (finite_vals (map metric ms)); reflexivity.
    + reflexivity.
Qed.

Lemma di_ratio_returns (by_group : list GroupMetrics) :
  di_ratio by_group = Ok (di_ratio_of by_group).
Proof.
  unfold di_ratio, di_ratio_of, nanmax, nanmin.
  destruct by_group as [| m ms]; simpl.
  - reflexivity.
  - destruct (positive_rate m); simpl.
    + destruct (finite_vals (map positive_rate ms)) as [| q qs]; simpl.
      * reflexivity.
      * unfold _safe_div, fne0, fdiv.
        destruct (Qeq_bool (fold_left Qmax qs q) 0); reflexivity.
    + unfold _safe_div, fne0, fdiv.
      destruct (Qeq_bool _ 0); reflexivity.
Qed.

(** ** The report of a call that supplies [y_pred] *)

Lemma from_arrays_pred (y_true y_pred sensitive : list value)
    (y_score : option (list float)) (threshold : option float)
    (positive_label : value) (group_order : option (list value))
    (dropna_groups : bool) :
  length y_true = length y_pred ->
  length y_true = length sensitive ->
  from_arrays y_true (Some y_pred) sensitive y_score threshold
    positive_label group_order dropna_groups =
  g <- grouping group_order
         (mkSeries "sensitive" (rows_of dropna_groups sensitive sensitive)) ;;
  Ok (report_of g
        (normalized "y_true" positive_label
           (rows_of dropna_groups sensitive y_true))
        (normalized "y_pred" positive_label
           (rows_of dropna_groups sensitive y_pred))
        (length (rows_of dropna_groups sensitive y_true))
        positive_label).
Proof.
  intros H1 H2. unfold from_arrays, len, _as_series. simpl bind. simpl values.
  rewrite <- H1, <- H2, Nat.eqb_refl. simpl negb. simpl orb. cbv iota.
  unfold grouping, rows_of, report_of, normalized.
  destruct dropna_groups; simpl; destruct group_order as [order |]; simpl.
  - destruct (set_categories _ order) as [g | e]; simpl; [| reflexivity].
    rewrite group_loop_returns. simpl.
    rewrite !span_returns, di_ratio_returns. reflexivity.
  - rewrite group_loop_returns. simpl.
    rewrite !span_returns, di_ratio_returns. reflexivity.
  - destruct (set_categories _ order) as [g | e]; simpl; [| reflexivity].
    rewrite group_loop_returns. simpl.
    rewrite !span_returns, di_ratio_returns. reflexivity.
  - rewrite group_loop_returns. simpl.
    rewrite !span_returns, di_ratio_returns. reflexivity.
Qed.

(** ** Which calls raise *)

Lemma from_arrays_no_source (y_true sensitive : list value)
    (y_score : option (list float)) (threshold : option float)
    (positive_label : value) (group_order : option (list value))
    (dropna_groups : bool) :
  y_score = None \/ threshold = None ->
  from_arrays y_true None sensitive y_score threshold positive_label
    group_order dropna_groups = Raise no_prediction.
Proof.
  intros [H | H]; subst; unfold from_arrays.
  - reflexivity.
  - destruct y_score; reflexivity.
Qed.

Lemma from_arrays_lengths (y_true sensitive : list value)
    (y_pred : option (list value))
    (y_score : option (list float)) (threshold : option float)
    (positive_label : value) (group_order : option (list value))
    (dropna_groups : bool) (p : list value) :
  y_pred = Some p ->
  length y_true <> length p \/ length y_true <> length sensitive ->
  from_arrays y_true y_pred sensitive y_score threshold positive_label
    group_order dropna_groups = Raise length_mismatch.
Proof.
  intros -> H. unfold from_arrays, len, _as_series. simpl bind. simpl values.
  destruct H as [H | H]; apply Nat.eqb_neq in H; rewrite H; simpl.
  - reflexivity.
  - rewrite orb_true_r. reflexivity.
Qed.

(** The thresholded scores keep the name [y_score], so the frame has no
    column [y_pred]. *)
Lemma from_arrays_score (y_true sensitive : list value)
    (scores : list float) (t : float)
    (positive_label : value) (group_order : option (list value))
    (dropna_groups : bool) :
  length y_true = length scores ->
  length y_true = length sensitive ->
  from_arrays y_true None sensitive (Some scores) (Some t) positive_label
    group_order dropna_groups = Raise (KeyError "y_pred").
Proof.
  intros H1 H2.
  unfold from_arrays, len, _as_series, as_cells, astype_int, series_ge, smap.
  simpl bind. simpl values. rewrite !length_map.
  rewrite <- H1, <- H2, Nat.eqb_refl. simpl.
  destruct dropna_groups; reflexivity.
Qed.

Lemma from_arrays_score_raises (y_true sensitive : list value)
    (y_score : option (list float)) (threshold : option float)
    (positive_label : value) (group_order : option (list value))
    (dropna_groups : bool) :
  raises (from_arrays y_true None sensitive y_score threshold positive_label
            group_order dropna_groups).
Proof.
  destruct y_score as [scores |];
    [destruct threshold as [t |] |].
  - destruct (Nat.eq_dec (length y_true) (length scores)) as [H1 | H1];
      [destruct (Nat.eq_dec (length y_true) (length sensitive)) as [H2 | H2] |].
    + eexists. apply from_arrays_score; assumption.
    + exists length_mismatch.
      unfold from_arrays, len, _as_series, as_cells, astype_int, series_ge, smap.
      simpl bind. simpl values. rewrite !length_map.
      apply Nat.eqb_neq in H2. rewrite H2, orb_true_r. reflexivity.
    + exists length_mismatch.
      unfold from_arrays, len, _as_series, as_cells, astype_int, series_ge, smap.
      simpl bind. simpl values. rewrite !length_map.
      apply Nat.eqb_neq in H1. rewrite H1. reflexivity.
  - eexists. apply from_arrays_no_source. right. reflexivity.
  - eexists. apply from_arrays_no_source. left. reflexivity.
Qed.

(** A call that returns supplied [y_pred], and its report is [report_of]. *)
Lemma from_arrays_Ok_inv (y_true sensitive : list value)
    (y_pred : option (list value))
    (y_score : option (list float)) (threshold : option float)
    (positive_label : value) (group_order : option (list value))
    (dropna_groups : bool) (r : BiasReport) :
  from_arrays y_true y_pred sensitive y_score threshold positive_label
    group_order dropna_groups = Ok r ->
  exists p g,
    y_pred = Some p /\
    length y_true = length p /\
    length y_true = length sensitive /\
    grouping group_order
      (mkSeries "sensitive" (rows_of dropna_groups sensitive sensitive)) = Ok g /\
    r = report_of g
          (normalized "y_true" positive_label
             (rows_of dropna_groups sensitive y_true))
          (normalized "y_pred" positive_label
             (rows_of dropna_groups sensitive p))
          (length (rows_of dropna_groups sensitive y_true))
          positive_label.
Proof.
  intros H. destruct y_pred as [p |].
  - destruct (Nat.eq_dec (length y_true) (length p)) as [H1 | H1];
      [destruct (Nat.eq_dec (length y_true) (length sensitive)) as [H2 | H2] |].
    + rewrite (from_arrays_pred _ _ _ _ _ _ _ _ H1 H2) in H.
      apply bind_Ok in H. destruct H as [g [Hg Hr]].
      exists p, g. injection Hr as <-. repeat split; assumption.
    + rewrite (from_arrays_lengths _ _ _ _ _ _ _ _ p eq_refl) in H;
        [discriminate H | right; exact H2].
    + rewrite (from_arrays_lengths _ _ _ _ _ _ _ _ p eq_refl) in H;
        [discriminate H | left; exact H1].
  - exfalso. eapply raises_not_returns.
    + apply from_arrays_score_raises.
    + exists r. exact H.
Qed.

Lemma grouping_Ok (group_order : option (list value)) (s : Series value) :
  valid_order group_order = true ->
  grouping group_order s =
  Ok (mkCategorical (categories_of group_order (values s))
        (smap (cell_of group_order) s)).
Proof.
  unfold grouping, valid_order, set_categories, categories_of, astype_category.
  destruct group_order as [order |].
  - intros H. apply andb_true_iff in H. destruct H as [Hna Hu].
    apply negb_true_iff in Hna. rewrite Hna, Hu. reflexivity.
  - intros _. unfold smap, cell_of. rewrite map_id. destruct s; reflexivity.
Qed.

Lemma grouping_Raise (group_order : option (list value)) (s : Series value) :
  valid_order group_order = false -> raises (grouping group_order s).
Proof.
  unfold grouping, valid_order, set_categories.
  destruct group_order as [order |]; [| discriminate].
  intros H. destruct (existsb isna order); simpl in *.
  - eexists. reflexivity.
  - rewrite H. eexists. reflexivity.
Qed.

Lemma grouping_Raise_ValueError (group_order : option (list value))
    (s : Series value) (e : exn) :
  grouping group_order s = Raise e -> exists msg, e = ValueError msg.
Proof.
  unfold grouping, set_categories.
  destruct group_order as [order |]; [| discriminate].
  destruct (existsb isna order); [| destruct (negb (is_unique order))];
    intros H; try discriminate H; injection H as <-; eexists; reflexivity.
Qed.

Lemma grouping_Ok_inv (group_order : option (list value)) (s : Series value)
    (g : Categorical) :
  grouping group_order s = Ok g ->
  valid_order group_order = true /\
  g = mkCategorical (categories_of group_order (values s))
        (smap (cell_of group_order) s).
Proof.
  intros H. destruct (valid_order group_order) eqn:E.
  - rewrite (grouping_Ok _ _ E) in H. injection H as <-. split; reflexivity.
  - exfalso. eapply raises_not_returns.
    + apply grouping_Raise. exact E.
    + exists g. exact H.
Qed.

(** ** Masks and filters *)

Section ListFacts.

Context {A B : Type}.

Lemma select_map (f : A -> B) (m : A -> bool) (l : list A) :
  select (map f l) (map m l) = map f (filter m l).
Proof.
  induction l as [| x l IH]; simpl.
  - reflexivity.
  - destruct (m x); simpl; rewrite IH; reflexivity.
Qed.

Lemma bsum_map (m : A -> bool) (l : list A) :
  bsum (map m l) = Z.of_nat (length (filter m l)).
Proof.
  induction l as [| x l IH].
  - reflexivity.
  - cbn [map bsum filter]. rewrite IH.
    destruct (m x); cbn [Z.b2z length]; lia.
Qed.

Lemma zip_and_map (p q : A -> bool) (l : list A) :
  zip_and (map p l) (map q l) = map (fun x => p x && q x) l.
Proof.
  induction l as [| x l IH]; simpl.
  - reflexivity.
  - rewrite IH. reflexivity.
Qed.

Lemma filter_nil_length (m : A -> bool) (l : list A) :
  (Z.of_nat (length (filter m l)) =? 0) = negb (existsb m l).
Proof.
  induction l as [| x l IH]; simpl.
  - reflexivity.
  - destruct (m x); simpl.
    + reflexivity.
    + exact IH.
Qed.

End ListFacts.

Lemma bsum_nonneg (l : list bool) : 0 <= bsum l.
Proof.
  induction l as [| b l IH]; cbn [bsum].
  - lia.
  - destruct b; cbn [Z.b2z]; lia.
Qed.

Lemma zip3_true (a b c : list value) :
  length a = length b -> length a = length c -> map s_true (zip3 a b c) = a.
Proof.
  revert b c. induction a as [| x a IH]; intros [| y b] [| z c] Hb Hc;
    simpl in *; try discriminate; try reflexivity.
  f_equal. apply IH; lia.
Qed.

Lemma zip3_pred (a b c : list value) :
  length a = length b -> length a = length c -> map s_pred (zip3 a b c) = b.
Proof.
  revert b c. induction a as [| x a IH]; intros [| y b] [| z c] Hb Hc;
    simpl in *; try discriminate; try reflexivity.
  f_equal. apply IH; lia.
Qed.

Lemma zip3_group (a b c : list value) :
  length a = length b -> length a = length c -> map s_group (zip3 a b c) = c.
Proof.
  revert b c. induction a as [| x a IH]; intros [| y b] [| z c] Hb Hc;
    simpl in *; try discriminate; try reflexivity.
  f_equal. apply IH; lia.
Qed.

Section Rows.

Variables y_true y_pred sensitive : list value.
Variable dropna_groups : bool.
Hypothesis Hpred : length y_true = length y_pred.
Hypothesis Hsens : length y_true = length sensitive.

Let rows := samples dropna_groups y_true y_pred sensitive.

Lemma rows_of_column (f : sample -> value) (column : list value) :
  map f (zip3 y_true y_pred sensitive) = column ->
  rows_of dropna_groups sensitive column = map f rows.
Proof.
  intros <-. unfold rows_of, rows, samples.
  destruct dropna_groups; [| reflexivity].
  replace (map notna sensitive)
    with (map (fun r => notna (s_group r)) (zip3 y_true y_pred sensitive)).
  - apply select_map.
  - rewrite <- map_map, (zip3_group _ _ _ Hpred Hsens). reflexivity.
Qed.

Lemma rows_of_true : rows_of dropna_groups sensitive y_true = map s_true rows.
Proof. apply rows_of_column, zip3_true; assumption. Qed.

Lemma rows_of_pred : rows_of dropna_groups sensitive y_pred = map s_pred rows.
Proof. apply rows_of_column, zip3_pred; assumption. Qed.

Lemma rows_of_group :
  rows_of dropna_groups sensitive sensitive = map s_group rows.
Proof. apply rows_of_column, zip3_group; assumption. Qed.

End Rows.

(** ** The entries, from the samples *)

Lemma zsum_b2z (p : sample -> bool) (ms : list sample) :
  zsum (map (fun r => Z.b2z (p r)) ms) = count_if p ms.
Proof.
  unfold count_if. induction ms as [| r ms IH].
  - reflexivity.
  - cbn [map zsum filter]. rewrite IH.
    destruct (p r); cbn [Z.b2z length]; lia.
Qed.

Lemma confusion_members (p t : sample -> bool) (ms : list sample)
    (yp yt : Series Z) (a b : Z) :
  values yp = map (fun r => Z.b2z (p r)) ms ->
  values yt = map (fun r => Z.b2z (t r)) ms ->
  confusion yp yt a b =
  count_if (fun r => (Z.b2z (p r) =? a) && (Z.b2z (t r) =? b)) ms.
Proof.
  intros Hp Ht. unfold confusion, series_and, series_eqz, smap, count_if.
  cbn [values]. rewrite Hp, Ht, !map_map.
  rewrite (zip_and_map (fun r => Z.b2z (p r) =? a) (fun r => Z.b2z (t r) =? b)).
  apply bsum_map.
Qed.

Lemma count_if_ext (p q : sample -> bool) (ms : list sample) :
  (forall r, p r = q r) -> count_if p ms = count_if q ms.
Proof.
  intros H. unfold count_if. rewrite (filter_ext p q H). reflexivity.
Qed.

Lemma metrics_of_members (positive_label grp : value) (ms : list sample)
    (yt yp : Series Z) :
  values yt = map (fun r => Z.b2z (truth_pos positive_label r)) ms ->
  values yp = map (fun r => Z.b2z (pred_pos positive_label r)) ms ->
  metrics_of grp (Z.of_nat (length ms)) yt yp = entry_of positive_label grp ms.
Proof.
  intros Ht Hp. unfold metrics_of, entry_of.
  rewrite !(confusion_members (pred_pos positive_label)
              (truth_pos positive_label) ms yp yt _ _ Hp Ht).
  rewrite Hp, zsum_b2z.
  assert (Hbits : forall a b c d : bool,
             ((Z.b2z a =? 1) && (Z.b2z b =? 1) = a && b) /\
             ((Z.b2z a =? 1) && (Z.b2z b =? 0) = a && negb b) /\
             ((Z.b2z a =? 0) && (Z.b2z b =? 0) = negb a && negb b) /\
             ((Z.b2z a =? 0) && (Z.b2z b =? 1) = negb a && b))
    by (intros [|] [|] _ _; repeat split; reflexivity).
  repeat first
    [ apply count_if_ext; intros r;
      apply (Hbits (pred_pos positive_label r) (truth_pos positive_label r)
               true true)
    | progress f_equal ].
Qed.

Lemma groups_of_table (group_order : option (list value))
    (positive_label : value) (rows : list sample)
    (cats groups : list value) (n1 n2 n3 : string) :
  groups_of
    (mkCategorical cats
       (smap (cell_of group_order) (mkSeries n3 (map s_group rows))))
    (normalized n1 positive_label (map s_true rows))
    (normalized n2 positive_label (map s_pred rows))
    groups =
  group_table group_order positive_label rows groups.
Proof.
  induction groups as [| grp rest IH]; cbn [groups_of group_table].
  - reflexivity.
  - rewrite IH.
    set (m := fun r => value_eqb (cell_of group_order (s_group r)) grp).
    assert (Hmask : values (cat_eq (mkCategorical cats
                (smap (cell_of group_order) (mkSeries n3 (map s_group rows))))
                grp) = map m rows).
    { unfold cat_eq, series_eq, smap. cbn [values cells].
      rewrite !map_map. reflexivity. }
    rewrite Hmask, bsum_map.
    change (filter m rows) with (members group_order grp rows).
    destruct (members group_order grp rows) as [| r0 ms] eqn:E.
    + reflexivity.
    + replace (Z.of_nat (length (r0 :: ms)) =? 0) with false
        by (symmetry; apply Z.eqb_neq; cbn [length]; lia).
      f_equal. apply metrics_of_members.
      * unfold series_select. cbn [values]. rewrite Hmask.
        unfold normalized, astype_int, series_eq, smap.
        cbn [values]. rewrite !map_map.
        rewrite (select_map (fun r => Z.b2z (value_eqb (s_true r) positive_label)) m).
        change (filter m rows) with (members group_order grp rows).
        rewrite E. reflexivity.
      * unfold series_select. cbn [values]. rewrite Hmask.
        unfold normalized, astype_int, series_eq, smap.
        cbn [values]. rewrite !map_map.
        rewrite (select_map (fun r => Z.b2z (value_eqb (s_pred r) positive_label)) m).
        change (filter m rows) with (members group_order grp rows).
        rewrite E. reflexivity.
Qed.

(** ** The report, from the samples *)

Lemma from_arrays_returns (y_true y_pred sensitive : list value)
    (y_score : option (list float)) (threshold : option float)
    (positive_label : value) (group_order : option (list value))
    (dropna_groups : bool) :
  length y_true = length y_pred ->
  length y_true = length sensitive ->
  valid_order group_order = true ->
  from_arrays y_true (Some y_pred) sensitive y_score threshold
    positive_label group_order dropna_groups =
  Ok (report_of_samples group_order positive_label
        (samples dropna_groups y_true y_pred sensitive)).
Proof.
  intros H1 H2 Hv. rewrite (from_arrays_pred _ _ _ _ _ _ _ _ H1 H2).
  rewrite (grouping_Ok _ _ Hv). cbn [bind values].
  rewrite (rows_of_true _ _ _ _ H1 H2), (rows_of_pred _ _ _ _ H1 H2),
    (rows_of_group _ _ _ _ H1 H2).
  unfold report_of, report_of_samples, table_of. cbn [categories].
  rewrite groups_of_table, length_map. reflexivity.
Qed.

Lemma from_arrays_inv (y_true sensitive : list value)
    (y_pred : option (list value))
    (y_score : option (list float)) (threshold : option float)
    (positive_label : value) (group_order : option (list value))
    (dropna_groups : bool) (r : BiasReport) :
  from_arrays y_true y_pred sensitive y_score threshold positive_label
    group_order dropna_groups = Ok r ->
  exists p,
    y_pred = Some p /\
    length y_true = length p /\
    length y_true = length sensitive /\
    valid_order group_order = true /\
    r = report_of_samples group_order positive_label
          (samples dropna_groups y_true p sensitive).
Proof.
  intros H. destruct (from_arrays_Ok_inv _ _ _ _ _ _ _ _ _ H)
    as [p [g [-> [H1 [H2 [Hg _]]]]]].
  apply grouping_Ok_inv in Hg. destruct Hg as [Hv _].
  exists p. repeat split; try assumption.
  rewrite (from_arrays_returns _ _ _ _ _ _ _ _ H1 H2 Hv) in H.
  injection H as <-. reflexivity.
Qed.

Lemma group_table_In (group_order : option (list value))
    (positive_label : value) (rows : list sample) (groups : list value)
    (m : GroupMetrics) :
  In m (group_table group_order positive_label rows groups) <->
  exists grp,
    In grp groups /\
    members group_order grp rows <> [] /\
    m = entry_of positive_label grp (members group_order grp rows).
Proof.
  induction groups as [| g0 rest IH]; cbn [group_table].
  - split; [intros [] | intros [grp [[] _]]].
  - destruct (members group_order g0 rows) as [| r0 ms] eqn:E.
    + rewrite IH. split; intros [grp [Hin [Hne Hm]]]; exists grp.
      * repeat split; [right |..]; assumption.
      * destruct Hin as [-> | Hin]; [rewrite E in Hne; contradiction |].
        repeat split; assumption.
    + cbn [In]. rewrite IH. split.
      * intros [<- | [grp [Hin [Hne Hm]]]].
        -- exists g0. rewrite E. repeat split; [left; reflexivity | discriminate].
        -- exists grp. repeat split; [right |..]; assumption.
      * intros [grp [[-> | Hin] [Hne Hm]]].
        -- left. rewrite Hm, E. reflexivity.
        -- right. exists grp. repeat split; assumption.
Qed.

Lemma entry_group (positive_label grp : value) (ms : list sample) :
  group (entry_of positive_label grp ms) = grp.
Proof. reflexivity. Qed.

Lemma count_if_bounds (p : sample -> bool) (ms : list sample) :
  0 <= count_if p ms <= Z.of_nat (length ms).
Proof.
  unfold count_if. pose proof (filter_length_le p ms). lia.
Qed.

(** ** Rates *)

Lemma entry_rates (positive_label grp : value) (ms : list sample) :
  rates_ok (entry_of positive_label grp ms).
Proof.
  unfold rates_ok, rate_ok, entry_of.
  cbn [positive_rate tpr fpr ppv tnr fnr].
  repeat split; apply ratio_range;
    repeat match goal with
           | |- context [count_if ?p ms] =>
               lazymatch goal with
               | H : 0 <= count_if p ms <= _ |- _ => fail
               | _ => pose proof (count_if_bounds p ms)
               end
           end; lia.
Qed.

Lemma table_rates (group_order : option (list value))
    (positive_label : value) (rows : list sample) :
  Forall rates_ok (table_of group_order positive_label rows).
Proof.
  apply Forall_forall. intros m Hm.
  apply group_table_In in Hm. destruct Hm as [grp [_ [_ ->]]].
  apply entry_rates.
Qed.

(** ** Every rate is a proportion *)

(** C5. In the report of a call that returns, each of the six rates of
    every entry of [by_group] is not-a-number or lies in [0, 1]. *)
Theorem rates_in_unit_interval
    (y_true sensitive : list value) (y_pred : option (list value))
    (y_score : option (list float)) (threshold : option float)
    (positive_label : value) (group_order : option (list value))
    (dropna_groups : bool) (r : BiasReport) :
  from_arrays y_true y_pred sensitive y_score threshold positive_label
    group_order dropna_groups = Ok r ->
  Forall rates_ok (by_group r).
Proof.
  intros H. apply from_arrays_inv in H.
  destruct H as [p [_ [_ [_ [_ ->]]]]]. apply table_rates.
Qed.

Lemma rates_in_unit_interval_witness :
  exists r, docstring_report = Ok r /\ Forall rates_ok (by_group r).
Proof.
  eexists. split.
  - vm_compute. reflexivity.
  - apply (rates_in_unit_interval ex_true ex_sensitive (Some ex_pred)
             None None (VInt 1) None false).
    vm_compute. reflexivity.
Defined.

(** ** The score path *)

(** C2 (defect of the code). The thresholded scores are a series named
    [y_score]; the frame built from it has no column [y_pred], and the
    lookup of that column raises: a call with scores and a threshold
    produces no normalized prediction at all.  Moreover the column holds
    the integers 0 and 1, which the code would compare to
    [positive_label]: for the label ["yes"] the sample scored 0.9
    against the threshold 0.5 would come out negative. *)
Theorem score_path_raises_KeyError :
  from_arrays [VStr "yes"; VStr "no"] None [VStr "A"; VStr "B"]
    (Some [Fin (9 # 10); Fin (1 # 10)]) (Some (Fin (1 # 2)))
    (VStr "yes") None false = Raise (KeyError "y_pred") /\
  from_arrays [VInt 1; VInt 0] None [VStr "A"; VStr "B"]
    (Some [Fin (9 # 10); Fin (1 # 10)]) (Some (Fin (1 # 2)))
    (VInt 1) None false = Raise (KeyError "y_pred") /\
  fge (Fin (9 # 10)) (Fin (1 # 2)) = true /\
  values (series_eq
            (as_cells (astype_int
               (series_ge (mkSeries "y_score" [Fin (9 # 10); Fin (1 # 10)])
                  (Fin (1 # 2)))))
            (VStr "yes")) = [false; false].
Proof.
  repeat split.
Qed.

(** ** Validation errors *)

Lemma from_arrays_score_lengths (y_true sensitive : list value)
    (scores : list float) (t : float)
    (positive_label : value) (group_order : option (list value))
    (dropna_groups : bool) :
  length y_true <> length scores \/ length y_true <> length sensitive ->
  from_arrays y_true None sensitive (Some scores) (Some t) positive_label
    group_order dropna_groups = Raise length_mismatch.
Proof.
  intros H.
  unfold from_arrays, len, _as_series, as_cells, astype_int, series_ge, smap.
  simpl bind. simpl values. rewrite !length_map.
  destruct H as [H | H]; apply Nat.eqb_neq in H; rewrite H.
  - reflexivity.
  - rewrite orb_true_r. reflexivity.
Qed.

(** C3, as stated, fails: a call that supplies [y_pred] and sequences of
    one length still raises when [group_order] repeats a group. *)
Lemma repeated_group_order_raises :
  from_arrays [VInt 1] (Some [VInt 1]) [VStr "A"] None None (VInt 1)
    (Some [VStr "A"; VStr "A"]) false =
  Raise (ValueError "Categorical categories must be unique") /\
  ~ (no_source (Some [VInt 1]) None None \/
     lengths_differ [VInt 1] (Some [VInt 1]) [VStr "A"] None).
Proof.
  split.
  - reflexivity.
  - intros [[H _] | [H | H]].
    + discriminate H.
    + apply H. reflexivity.
    + apply H. reflexivity.
Qed.

(** C3, amended. [from_arrays] raises a [ValueError] when no prediction
    source is supplied, and when a source is supplied but the sequences
    differ in length.  A call that supplies [y_pred] raises exactly when the
    sequences differ in length or the explicit [group_order] holds a missing
    value or a repetition, what it raises is a [ValueError], and it returns
    a report otherwise. *)
Theorem validation_errors
    (y_true sensitive : list value) (y_pred : option (list value))
    (y_score : option (list float)) (threshold : option float)
    (positive_label : value) (group_order : option (list value))
    (dropna_groups : bool) :
  let call := from_arrays y_true y_pred sensitive y_score threshold
                positive_label group_order dropna_groups in
  (no_source y_pred y_score threshold -> call = Raise no_prediction) /\
  (~ no_source y_pred y_score threshold ->
   lengths_differ y_true y_pred sensitive y_score ->
   call = Raise length_mismatch) /\
  (y_pred <> None ->
   (raises call <->
    lengths_differ y_true y_pred sensitive y_score \/
    valid_order group_order = false)) /\
  (y_pred <> None ->
   forall e, call = Raise e -> exists msg, e = ValueError msg) /\
  (y_pred <> None -> ~ raises call -> returns call).
Proof.
  cbv zeta. split; [| split; [| split; [| split]]].
  - intros [-> H]. apply from_arrays_no_source. exact H.
  - intros Hsrc Hlen. unfold lengths_differ in Hlen.
    destruct y_pred as [p |].
    + apply (from_arrays_lengths _ _ _ _ _ _ _ _ p eq_refl Hlen).
    + destruct y_score as [scores |].
      * destruct threshold as [t |].
        -- apply from_arrays_score_lengths. exact Hlen.
        -- exfalso. apply Hsrc. split; [reflexivity | right; reflexivity].
      * exfalso. apply Hsrc. split; [reflexivity | left; reflexivity].
  - intros Hp. destruct y_pred as [p |]; [| contradiction].
    unfold lengths_differ. split.
    + intros Hr.
      destruct (Nat.eq_dec (length y_true) (length p)) as [H1 | H1];
        [| left; left; exact H1].
      destruct (Nat.eq_dec (length y_true) (length sensitive)) as [H2 | H2];
        [| left; right; exact H2].
      right. destruct (valid_order group_order) eqn:Hv; [| reflexivity].
      exfalso. apply (raises_not_returns _ Hr). eexists.
      apply from_arrays_returns; assumption.
    + intros [Hlen | Hv].
      * exists length_mismatch.
        apply (from_arrays_lengths _ _ _ _ _ _ _ _ p eq_refl Hlen).
      * intros. destruct (result_cases (from_arrays y_true (Some p) sensitive
          y_score threshold positive_label group_order dropna_groups))
          as [[r Hr] | Hr]; [| exact Hr].
        apply from_arrays_inv in Hr.
        destruct Hr as [_ [_ [_ [_ [Hv' _]]]]]. congruence.
  - intros Hp e He. destruct y_pred as [p |]; [| contradiction].
    destruct (Nat.eq_dec (length y_true) (length p)) as [H1 | H1];
      [destruct (Nat.eq_dec (length y_true) (length sensitive)) as [H2 | H2] |].
    + rewrite (from_arrays_pred _ _ _ _ _ _ _ _ H1 H2) in He.
      destruct (grouping group_order _) as [g | e'] eqn:Hg;
        cbn [bind] in He; [discriminate He |].
      injection He as <-. apply (grouping_Raise_ValueError _ _ _ Hg).
    + rewrite (from_arrays_lengths _ _ _ _ _ _ _ _ p eq_refl) in He
        by (right; exact H2).
      injection He as <-. eexists. reflexivity.
    + rewrite (from_arrays_lengths _ _ _ _ _ _ _ _ p eq_refl) in He
        by (left; exact H1).
      injection He as <-. eexists. reflexivity.
  - intros _ Hr. destruct (result_cases (from_arrays y_true y_pred sensitive
      y_score threshold positive_label group_order dropna_groups))
      as [H | H]; [exact H | contradiction].
Qed.

(** ** The sample count *)

Lemma zip3_length (a b c : list value) :
  length a = length b -> length a = length c -> length (zip3 a b c) = length a.
Proof.
  intros Hb Hc. rewrite <- (zip3_true a b c Hb Hc) at 2.
  rewrite length_map. reflexivity.
Qed.

Lemma samples_length (dropna_groups : bool) (y_true y_pred sensitive : list value) :
  length y_true = length y_pred ->
  length y_true = length sensitive ->
  (length (samples dropna_groups y_true y_pred sensitive)
   + dropped dropna_groups sensitive)%nat = length y_true.
Proof.
  intros Hb Hc. unfold samples, dropped. destruct dropna_groups.
  - rewrite <- (zip3_group _ _ _ Hb Hc) at 2.
    unfold isna. rewrite filter_map_swap, length_map, filter_length.
    apply zip3_length; assumption.
  - rewrite Nat.add_0_r. apply zip3_length; assumption.
Qed.

(** C7. In the report of a call that returns, [n_samples] is the length
    of the input minus the number of rows dropped for a missing group;
    nothing is dropped when [dropna_groups] is false. *)
Theorem n_samples_counts_kept_rows
    (y_true sensitive : list value) (y_pred : option (list value))
    (y_score : option (list float)) (threshold : option float)
    (positive_label : value) (group_order : option (list value))
    (dropna_groups : bool) (r : BiasReport) :
  from_arrays y_true y_pred sensitive y_score threshold positive_label
    group_order dropna_groups = Ok r ->
  n_samples (metadata r) =
    Z.of_nat (length y_true) - Z.of_nat (dropped dropna_groups sensitive) /\
  (dropna_groups = false -> n_samples (metadata r) = Z.of_nat (length y_true)).
Proof.
  intros H. apply from_arrays_inv in H.
  destruct H as [p [_ [H1 [H2 [_ ->]]]]].
  pose proof (samples_length dropna_groups _ _ _ H1 H2) as Hlen.
  cbn [report_of_samples metadata n_samples]. split.
  - lia.
  - intros ->. cbn [dropped] in Hlen. lia.
Qed.

Lemma n_samples_counts_kept_rows_witness :
  exists r,
    from_arrays [VInt 1; VInt 0; VInt 1] (Some [VInt 1; VInt 1; VInt 0])
      [VStr "A"; VNA; VStr "B"] None None (VInt 1) None true = Ok r /\
    n_samples (metadata r) = 2.
Proof.
  eexists. split.
  - vm_compute. reflexivity.
  - refine (proj1 (n_samples_counts_kept_rows
                     [VInt 1; VInt 0; VInt 1] [VStr "A"; VNA; VStr "B"]
                     (Some [VInt 1; VInt 1; VInt 0]) None None (VInt 1) None
                     true _ _)).
    vm_compute. reflexivity.
Defined.

(** ** Spans *)

Lemma Qmax_cases (x y : Q) : Qmax x y = x \/ Qmax x y = y.
Proof.
  unfold Qmax, GenericMinMax.gmax. destruct (x ?= y)%Q; auto.
Qed.

Lemma Qmin_cases (x y : Q) : Qmin x y = x \/ Qmin x y = y.
Proof.
  unfold Qmin, GenericMinMax.gmin. destruct (x ?= y)%Q; auto.
Qed.

Lemma fold_max_In (qs : list Q) (q : Q) : In (fold_left Qmax qs q) (q :: qs).
Proof.
  revert q. induction qs as [| a qs IH]; intros q; cbn [fold_left].
  - left. reflexivity.
  - destruct (IH (Qmax q a)) as [H | H].
    + rewrite <- H.
      destruct (Qmax_cases q a) as [E | E]; rewrite E;
        [left | right; left]; reflexivity.
    + right. right. exact H.
Qed.

Lemma fold_min_In (qs : list Q) (q : Q) : In (fold_left Qmin qs q) (q :: qs).
Proof.
  revert q. induction qs as [| a qs IH]; intros q; cbn [fold_left].
  - left. reflexivity.
  - destruct (IH (Qmin q a)) as [H | H].
    + rewrite <- H.
      destruct (Qmin_cases q a) as [E | E]; rewrite E;
        [left | right; left]; reflexivity.
    + right. right. exact H.
Qed.

Lemma fold_max_upper (qs : list Q) (q x : Q) :
  In x (q :: qs) -> (x <= fold_left Qmax qs q)%Q.
Proof.
  revert q x. induction qs as [| a qs IH]; intros q x Hx; cbn [fold_left].
  - destruct Hx as [-> | []]. apply Qle_refl.
  - destruct Hx as [-> | [-> | Hx]].
    + apply Qle_trans with (Qmax x a); [apply Q.le_max_l |].
      apply IH. left. reflexivity.
    + apply Qle_trans with (Qmax q x); [apply Q.le_max_r |].
      apply IH. left. reflexivity.
    + apply IH. right. exact Hx.
Qed.

Lemma fold_min_lower (qs : list Q) (q x : Q) :
  In x (q :: qs) -> (fold_left Qmin qs q <= x)%Q.
Proof.
  revert q x. induction qs as [| a qs IH]; intros q x Hx; cbn [fold_left].
  - destruct Hx as [-> | []]. apply Qle_refl.
  - destruct Hx as [-> | [-> | Hx]].
    + apply Qle_trans with (Qmin x a); [| apply Q.le_min_l].
      apply IH. left. reflexivity.
    + apply Qle_trans with (Qmin q x); [| apply Q.le_min_r].
      apply IH. left. reflexivity.
    + apply IH. right. exact Hx.
Qed.

Lemma finite_vals_Fin (qs : list Q) : finite_vals (map Fin qs) = qs.
Proof.
  induction qs as [| q qs IH]; cbn [map finite_vals].
  - reflexivity.
  - rewrite IH. reflexivity.
Qed.

(** A span of finite values is the largest minus the smallest. *)
Lemma span_of_finite (metric : GroupMetrics -> float)
    (by_group : list GroupMetrics) (qs : list Q) :
  map metric by_group = map Fin qs ->
  by_group <> [] ->
  exists hi lo,
    In hi qs /\ In lo qs /\
    Forall (fun x => (lo <= x /\ x <= hi)%Q) qs /\
    span_of metric by_group = Fin (hi - lo).
Proof.
  intros Hq Hne. unfold span_of. rewrite Hq, finite_vals_Fin.
  destruct qs as [| q qs].
  - destruct by_group; [contradiction | discriminate Hq].
  - exists (fold_left Qmax qs q), (fold_left Qmin qs q).
    repeat split.
    + apply fold_max_In.
    + apply fold_min_In.
    + apply Forall_forall. intros x Hx. split.
      * apply fold_min_lower. exact Hx.
      * apply fold_max_upper. exact Hx.
Qed.

Lemma span_of_nil (metric : GroupMetrics -> float) : span_of metric [] = NaN.
Proof. reflexivity. Qed.

Lemma span_of_single (metric : GroupMetrics -> float) (m : GroupMetrics) :
  span_of metric [m] = fsub (metric m) (metric m).
Proof.
  unfold span_of. cbn [map finite_vals]. destruct (metric m); reflexivity.
Qed.

(** The selection rate of an entry is a number. *)
Lemma entry_positive_rate (positive_label grp : value) (ms : list sample) :
  ms <> [] ->
  exists q, positive_rate (entry_of positive_label grp ms) = Fin q.
Proof.
  intros Hne. unfold entry_of, ratio. cbn [positive_rate].
  destruct (Z.of_nat (length ms) =? 0) eqn:E.
  - apply Z.eqb_eq in E. destruct ms; [contradiction | discriminate E].
  - eexists. reflexivity.
Qed.

Lemma table_positive_rates (group_order : option (list value))
    (positive_label : value) (rows : list sample) (groups : list value) :
  exists qs,
    map positive_rate (group_table group_order positive_label rows groups) =
    map Fin qs.
Proof.
  induction groups as [| grp rest [qs IH]]; cbn [group_table].
  - exists []. reflexivity.
  - destruct (members group_order grp rows) as [| r0 ms] eqn:E.
    + exists qs. exact IH.
    + destruct (entry_positive_rate positive_label grp (r0 :: ms))
        as [q Hq]; [discriminate |].
      exists (q :: qs). cbn [map]. rewrite Hq, IH. reflexivity.
Qed.

(** ** The summary *)

(** C6. In the report of a call that returns,
    [demographic_parity_difference] is the largest selection rate of
    [by_group] minus the smallest one (not-a-number when [by_group] is
    empty), hence never negative when it is a number. *)
Theorem dpd_is_max_minus_min
    (y_true sensitive : list value) (y_pred : option (list value))
    (y_score : option (list float)) (threshold : option float)
    (positive_label : value) (group_order : option (list value))
    (dropna_groups : bool) (r : BiasReport) :
  from_arrays y_true y_pred sensitive y_score threshold positive_label
    group_order dropna_groups = Ok r ->
  let rates := map positive_rate (by_group r) in
  let dpd := demographic_parity_difference (summary r) in
  (by_group r = [] -> dpd = NaN) /\
  (by_group r <> [] ->
   exists hi lo,
     In (Fin hi) rates /\ In (Fin lo) rates /\
     Forall (in_range lo hi) rates /\
     dpd = Fin (hi - lo)) /\
  (forall q, dpd = Fin q -> (0 <= q)%Q).
Proof.
  intros H. apply from_arrays_inv in H.
  destruct H as [p [_ [_ [_ [_ ->]]]]].
  cbn [report_of_samples by_group summary summary_of
         demographic_parity_difference]. cbv zeta.
  set (tbl := table_of group_order positive_label _).
  destruct (table_positive_rates group_order positive_label
              (samples dropna_groups y_true p sensitive)
              (categories_of group_order
                 (map s_group (samples dropna_groups y_true p sensitive))))
    as [qs Hqs].
  fold (table_of group_order positive_label
          (samples dropna_groups y_true p sensitive)) in Hqs.
  fold tbl in Hqs.
  assert (Hspan : tbl <> [] ->
            exists hi lo,
              In (Fin hi) (map positive_rate tbl) /\
              In (Fin lo) (map positive_rate tbl) /\
              Forall (in_range lo hi) (map positive_rate tbl) /\
              (lo <= hi)%Q /\
              span_of positive_rate tbl = Fin (hi - lo)).
  { intros Hne.
    destruct (span_of_finite positive_rate tbl qs Hqs Hne)
      as [hi [lo [Hhi [Hlo [Hall Hs]]]]].
    exists hi, lo. rewrite Hqs. repeat split.
    - apply in_map. exact Hhi.
    - apply in_map. exact Hlo.
    - apply Forall_map. exact Hall.
    - rewrite Forall_forall in Hall. apply (Hall lo Hlo).
    - exact Hs. }
  split; [| split].
  - intros ->. reflexivity.
  - intros Hne. destruct (Hspan Hne) as [hi [lo [H1 [H2 [H3 [_ H4]]]]]].
    exists hi, lo. repeat split; assumption.
  - intros q Hq. destruct tbl as [| m ms] eqn:E.
    + discriminate Hq.
    + destruct Hspan as [hi [lo [_ [_ [_ [Hle Hs]]]]]]; [discriminate |].
      rewrite Hs in Hq. injection Hq as <-.
      apply (proj1 (Qle_minus_iff lo hi)). exact Hle.
Qed.

Lemma dpd_is_max_minus_min_witness :
  exists r,
    docstring_report = Ok r /\
    (by_group r <> [] ->
     exists hi lo,
       In (Fin hi) (map positive_rate (by_group r)) /\
       In (Fin lo) (map positive_rate (by_group r)) /\
       Forall (in_range lo hi) (map positive_rate (by_group r)) /\
       demographic_parity_difference (summary r) = Fin (hi - lo)) /\
    (forall q, demographic_parity_difference (summary r) = Fin q -> (0 <= q)%Q).
Proof.
  destruct docstring_report as [r | e] eqn:E;
    [| vm_compute in E; discriminate E].
  exists r. split; [reflexivity |].
  exact (proj2 (dpd_is_max_minus_min ex_true ex_sensitive (Some ex_pred)
                  None None (VInt 1) None false r E)).
Defined.

(** C1, as stated, fails: with one group the five summary values can all
    be numbers. *)
Lemma one_group_summary_is_defined :
  exists r,
    from_arrays [VInt 1; VInt 0] (Some [VInt 1; VInt 0])
      [VStr "A"; VStr "A"] None None (VInt 1) None false = Ok r /\
    length (by_group r) = 1%nat /\
    is_nan (demographic_parity_difference (summary r)) = false /\
    is_nan (disparate_impact_ratio (summary r)) = false /\
    is_nan (equal_opportunity_difference (summary r)) = false /\
    is_nan (equalized_odds_difference (summary r)) = false /\
    is_nan (predictive_parity_difference (summary r)) = false.
Proof.
  eexists. split; [vm_compute; reflexivity |].
  repeat split.
Qed.

(** C1, amended. In the report of a call that returns, the five summary
    values are not-a-number when [by_group] is empty.  When it holds one
    entry, [demographic_parity_difference] is 0, [disparate_impact_ratio]
    is 1 or not-a-number, and each other difference is that entry's metric
    minus itself: 0 for a metric that is a number, not-a-number for one
    that is not. *)
Theorem summary_of_few_groups
    (y_true sensitive : list value) (y_pred : option (list value))
    (y_score : option (list float)) (threshold : option float)
    (positive_label : value) (group_order : option (list value))
    (dropna_groups : bool) (r : BiasReport) :
  from_arrays y_true y_pred sensitive y_score threshold positive_label
    group_order dropna_groups = Ok r ->
  (by_group r = [] ->
   demographic_parity_difference (summary r) = NaN /\
   disparate_impact_ratio (summary r) = NaN /\
   equal_opportunity_difference (summary r) = NaN /\
   equalized_odds_difference (summary r) = NaN /\
   predictive_parity_difference (summary r) = NaN) /\
  (forall m, by_group r = [m] ->
   feq (demographic_parity_difference (summary r)) (Fin 0) /\
   (disparate_impact_ratio (summary r) = NaN \/
    feq (disparate_impact_ratio (summary r)) (Fin 1)) /\
   equal_opportunity_difference (summary r) = fsub (tpr m) (tpr m) /\
   equalized_odds_difference (summary r) =
     py_max (fsub (tpr m) (tpr m)) (fsub (fpr m) (fpr m)) /\
   predictive_parity_difference (summary r) = fsub (ppv m) (ppv m)).
Proof.
  intros H. apply from_arrays_inv in H.
  destruct H as [p [_ [_ [_ [_ ->]]]]].
  cbn [report_of_samples by_group summary]. split.
  - intros ->. repeat split.
  - intros m Hm.
    destruct (table_positive_rates group_order positive_label
                (samples dropna_groups y_true p sensitive)
                (categories_of group_order
                   (map s_group (samples dropna_groups y_true p sensitive))))
      as [qs Hqs].
    fold (table_of group_order positive_label
            (samples dropna_groups y_true p sensitive)) in Hqs.
    rewrite Hm in Hqs |- *. unfold summary_of.
    cbn [demographic_parity_difference disparate_impact_ratio
           equal_opportunity_difference equalized_odds_difference
           predictive_parity_difference].
    rewrite !span_of_single.
    destruct qs as [| q qs]; [discriminate Hqs |].
    cbn [map] in Hqs. injection Hqs as Hq _.
    unfold di_ratio_of. cbn [map]. rewrite Hq. cbn [finite_vals fold_left].
    split; [| split; [| repeat split]].
    + cbn [fsub feq]. ring.
    + destruct (Qeq_bool q 0) eqn:E; [left; reflexivity | right].
      cbn [feq]. apply Qeq_bool_neq in E. field. exact E.
Qed.

Lemma summary_of_few_groups_witness :
  exists r,
    from_arrays [] (Some []) [] None None (VInt 1) None false = Ok r /\
    demographic_parity_difference (summary r) = NaN /\
    disparate_impact_ratio (summary r) = NaN /\
    equal_opportunity_difference (summary r) = NaN /\
    equalized_odds_difference (summary r) = NaN /\
    predictive_parity_difference (summary r) = NaN.
Proof.
  destruct (from_arrays [] (Some []) [] None None (VInt 1) None false)
    as [r | e] eqn:E; [| vm_compute in E; discriminate E].
  exists r. split; [reflexivity |].
  apply (proj1 (summary_of_few_groups [] [] (Some []) None None (VInt 1)
                  None false r E)).
  vm_compute in E. injection E as <-. reflexivity.
Defined.

(** ** Cells and categories *)

Lemma value_eqb_true (a b : value) :
  value_eqb a b = true <-> a = b /\ notna b = true.
Proof.
  destruct a as [x | x |], b as [y | y |]; cbn [value_eqb notna];
    split; try (intros [H1 H2]); try intros H; try discriminate;
    try (split; [| reflexivity]).
  - apply Z.eqb_eq in H. congruence.
  - injection H1 as ->. apply Z.eqb_refl.
  - apply String.eqb_eq in H. congruence.
  - injection H1 as ->. apply String.eqb_refl.
Qed.

Lemma mem_In (v : value) (l : list value) :
  mem v l = true <-> In v l /\ notna v = true.
Proof.
  unfold mem. rewrite existsb_exists. split.
  - intros [x [Hin Hx]]. apply value_eqb_true in Hx. destruct Hx as [-> Hn].
    split; assumption.
  - intros [Hin Hn]. exists v. split; [exact Hin |].
    apply value_eqb_true. split; [reflexivity | exact Hn].
Qed.

Lemma is_unique_NoDup (l : list value) :
  existsb isna l = false -> is_unique l = true -> NoDup l.
Proof.
  induction l as [| v l IH]; cbn [existsb is_unique]; intros Hna Hu.
  - constructor.
  - apply orb_false_iff in Hna. destruct Hna as [Hv Hna].
    apply andb_true_iff in Hu. destruct Hu as [Hm Hu].
    constructor.
    + intros Hin. apply negb_true_iff in Hm.
      assert (mem v l = true) as Hmem.
      { apply mem_In. split; [exact Hin |].
        unfold isna in Hv. apply negb_false_iff in Hv. exact Hv. }
      congruence.
    + apply IH; assumption.
Qed.

Lemma insert_sorted_perm (v : value) (l : list value) :
  Permutation (v :: l) (insert_sorted v l).
Proof.
  induction l as [| w l IH]; cbn [insert_sorted].
  - apply Permutation_refl.
  - destruct (value_leb v w).
    + apply Permutation_refl.
    + apply perm_trans with (w :: v :: l); [apply perm_swap |].
      apply perm_skip. exact IH.
Qed.

Lemma sort_values_perm (l : list value) : Permutation l (sort_values l).
Proof.
  induction l as [| v l IH]; cbn [sort_values].
  - apply perm_nil.
  - apply perm_trans with (v :: sort_values l).
    + apply perm_skip. exact IH.
    + apply insert_sorted_perm.
Qed.

Lemma categories_NoDup (group_order : option (list value))
    (column : list value) :
  valid_order group_order = true ->
  NoDup (categories_of group_order column).
Proof.
  intros Hv. destruct group_order as [order |]; cbn [categories_of].
  - cbn [valid_order] in Hv. apply andb_true_iff in Hv.
    destruct Hv as [Hna Hu]. apply negb_true_iff in Hna.
    apply is_unique_NoDup; assumption.
  - apply (Permutation_NoDup (sort_values_perm _)). apply NoDup_nodup.
Qed.

Lemma categories_In (group_order : option (list value))
    (column : list value) (x : value) :
  In x (categories_of group_order column) <->
  match group_order with
  | Some order => In x order
  | None => In x column /\ notna x = true
  end.
Proof.
  destruct group_order as [order |]; cbn [categories_of].
  - reflexivity.
  - split.
    + intros H. apply (Permutation_in _ (Permutation_sym (sort_values_perm _)))
        in H.
      apply nodup_In, filter_In in H. exact H.
    + intros H. apply (Permutation_in _ (sort_values_perm _)).
      apply nodup_In, filter_In. exact H.
Qed.

(** ** The groups of the table *)

Lemma members_nil (group_order : option (list value)) (grp : value)
    (rows : list sample) :
  members group_order grp rows = [] <-> has_rows group_order rows grp = false.
Proof.
  unfold members, has_rows. induction rows as [| r rows IH];
    cbn [filter existsb].
  - split; reflexivity.
  - destruct (value_eqb _ grp); cbn [orb].
    + split; discriminate.
    + exact IH.
Qed.

Lemma group_table_groups (group_order : option (list value))
    (positive_label : value) (rows : list sample) (groups : list value) :
  map group (group_table group_order positive_label rows groups) =
  filter (has_rows group_order rows) groups.
Proof.
  induction groups as [| grp rest IH]; cbn [group_table filter].
  - reflexivity.
  - destruct (members group_order grp rows) as [| r0 ms] eqn:E.
    + apply members_nil in E. rewrite E. exact IH.
    + destruct (has_rows group_order rows grp) eqn:Hr.
      * cbn [map]. rewrite IH. reflexivity.
      * apply members_nil in Hr. rewrite Hr in E. discriminate E.
Qed.

Lemma has_rows_true (group_order : option (list value)) (rows : list sample)
    (grp : value) :
  has_rows group_order rows grp = true <->
  In grp (map s_group rows) /\ notna grp = true /\
  in_order group_order grp = true.
Proof.
  unfold has_rows. rewrite existsb_exists. split.
  - intros [r [Hin Hr]]. apply value_eqb_true in Hr. destruct Hr as [Hc Hn].
    destruct group_order as [order |]; cbn [cell_of in_order] in *.
    + destruct (mem (s_group r) order) eqn:Hm.
      * subst grp. repeat split; try assumption. apply in_map. exact Hin.
      * subst grp. discriminate Hn.
    + subst grp. repeat split; try assumption. apply in_map. exact Hin.
  - intros [Hin [Hn Ho]]. apply in_map_iff in Hin.
    destruct Hin as [r [Hg Hin]]. exists r. split; [exact Hin |].
    apply value_eqb_true. split; [| exact Hn]. rewrite Hg.
    destruct group_order as [order |]; cbn [cell_of in_order] in *.
    + rewrite Ho. reflexivity.
    + reflexivity.
Qed.

Lemma samples_groups (dropna_groups : bool)
    (y_true y_pred sensitive : list value) :
  length y_true = length y_pred ->
  length y_true = length sensitive ->
  map s_group (samples dropna_groups y_true y_pred sensitive) =
  kept_groups dropna_groups sensitive.
Proof.
  intros H1 H2. unfold samples, kept_groups. destruct dropna_groups.
  - rewrite <- (zip3_group _ _ _ H1 H2) at 2.
    rewrite filter_map_swap. reflexivity.
  - apply zip3_group; assumption.
Qed.

Lemma table_length (group_order : option (list value))
    (positive_label : value) (rows : list sample) :
  valid_order group_order = true ->
  length (table_of group_order positive_label rows) =
  distinct_groups (filter (in_order group_order) (map s_group rows)).
Proof.
  intros Hv. unfold table_of, distinct_groups.
  rewrite <- (length_map group), group_table_groups.
  apply Permutation_length, NoDup_Permutation.
  - apply NoDup_filter, categories_NoDup. exact Hv.
  - apply NoDup_nodup.
  - intros x. rewrite filter_In, nodup_In, !filter_In, has_rows_true,
      categories_In.
    destruct group_order as [order |]; cbn [in_order].
    + rewrite mem_In. tauto.
    + tauto.
Qed.

Lemma table_groups_In (group_order : option (list value))
    (positive_label : value) (rows : list sample) (v : value) :
  In v (map group (table_of group_order positive_label rows)) <->
  In v (map s_group rows) /\ notna v = true /\ in_order group_order v = true.
Proof.
  unfold table_of.
  rewrite group_table_groups, filter_In, has_rows_true, categories_In.
  destruct group_order as [order |]; cbn [in_order].
  - rewrite mem_In. tauto.
  - tauto.
Qed.

Lemma in_order_None (l : list value) : filter (in_order None) l = l.
Proof.
  induction l as [| v l IH]; cbn [filter in_order].
  - reflexivity.
  - f_equal. exact IH.
Qed.

Lemma entry_count (positive_label grp : value) (ms : list sample) :
  ms <> [] -> 0 < count (entry_of positive_label grp ms).
Proof.
  intros Hne. cbn [entry_of count].
  destruct ms; [contradiction | cbn [length]; lia].
Qed.

(** C8, as stated, fails: an explicit [group_order] that leaves out a group
    of the data leaves it out of the report, although the group has a
    row. *)
Lemma group_order_leaves_groups_out :
  exists r,
    from_arrays [VInt 1; VInt 0] (Some [VInt 1; VInt 0])
      [VStr "A"; VStr "B"] None None (VInt 1) (Some [VStr "A"]) false = Ok r /\
    length (by_group r) = 1%nat /\
    distinct_groups (kept_groups false [VStr "A"; VStr "B"]) = 2%nat.
Proof.
  eexists. split; [vm_compute; reflexivity |].
  split; reflexivity.
Qed.

(** C8, amended. In the report of a call that returns, the number of
    entries of [by_group] is the number of distinct groups that have a row
    after the optional removal of the rows without a group and that, when a
    [group_order] is given, are listed in it: the groups of the entries are
    exactly those, and every entry has a positive count, a group with no
    row having no entry.  Without [group_order] this is the number of
    distinct groups that have a row. *)
Theorem entries_are_the_listed_groups_with_rows
    (y_true sensitive : list value) (y_pred : option (list value))
    (y_score : option (list float)) (threshold : option float)
    (positive_label : value) (group_order : option (list value))
    (dropna_groups : bool) (r : BiasReport) :
  from_arrays y_true y_pred sensitive y_score threshold positive_label
    group_order dropna_groups = Ok r ->
  length (by_group r) =
    distinct_groups
      (filter (in_order group_order) (kept_groups dropna_groups sensitive)) /\
  n_groups (metadata r) = Z.of_nat (length (by_group r)) /\
  (forall v,
      In v (map group (by_group r)) <->
      In v (kept_groups dropna_groups sensitive) /\
      notna v = true /\ in_order group_order v = true) /\
  Forall (fun m => 0 < count m) (by_group r) /\
  (group_order = None ->
   length (by_group r) =
     distinct_groups (kept_groups dropna_groups sensitive)).
Proof.
  intros H. apply from_arrays_inv in H.
  destruct H as [p [_ [H1 [H2 [Hv ->]]]]].
  cbn [report_of_samples by_group metadata n_groups].
  assert (Hlen := table_length group_order positive_label
                    (samples dropna_groups y_true p sensitive) Hv).
  rewrite (samples_groups _ _ _ _ H1 H2) in Hlen.
  split; [exact Hlen | split; [reflexivity | split; [| split]]].
  - intros v. rewrite table_groups_In, (samples_groups _ _ _ _ H1 H2).
    reflexivity.
  - apply Forall_forall. intros m Hm. apply group_table_In in Hm.
    destruct Hm as [grp [_ [Hne ->]]]. apply entry_count. exact Hne.
  - intros ->. rewrite Hlen, in_order_None. reflexivity.
Qed.

Lemma entries_are_the_listed_groups_with_rows_witness :
  exists r, docstring_report = Ok r /\ length (by_group r) = 2%nat.
Proof.
  destruct docstring_report as [r | e] eqn:E;
    [| vm_compute in E; discriminate E].
  exists r. split; [reflexivity |].
  exact (proj1 (entries_are_the_listed_groups_with_rows ex_true ex_sensitive
                  (Some ex_pred) None None (VInt 1) None false r E)).
Defined.

(** ** Complementary rates *)

Lemma count_if_split (p t : sample -> bool) (ms : list sample) :
  count_if (fun r => p r && t r) ms + count_if (fun r => negb (p r) && t r) ms
  = count_if t ms.
Proof.
  unfold count_if. induction ms as [| r ms IH]; cbn [filter].
  - reflexivity.
  - destruct (p r), (t r); cbn [andb negb length]; lia.
Qed.

Lemma count_if_pos (t : sample -> bool) (ms : list sample) (r : sample) :
  In r ms -> t r = true -> 0 < count_if t ms.
Proof.
  intros Hin Ht. unfold count_if.
  assert (In r (filter t ms)) as H by (apply filter_In; split; assumption).
  destruct (filter t ms); [destruct H | cbn [length]; lia].
Qed.

(** A sample whose group has an entry is a member of that entry. *)
Lemma sample_is_member (group_order : option (list value))
    (dropna_groups : bool) (y_true y_pred sensitive : list value)
    (grp : value) (smp : sample) :
  members group_order grp (samples dropna_groups y_true y_pred sensitive)
    <> [] ->
  In smp (zip3 y_true y_pred sensitive) ->
  s_group smp = grp ->
  In smp (members group_order grp
            (samples dropna_groups y_true y_pred sensitive)).
Proof.
  intros Hne Hin Hg.
  assert (Hr : has_rows group_order
                 (samples dropna_groups y_true y_pred sensitive) grp = true).
  { destruct (has_rows _ _ grp) eqn:E; [reflexivity |].
    apply members_nil in E. contradiction. }
  apply has_rows_true in Hr. destruct Hr as [_ [Hn Ho]].
  unfold members. apply filter_In. split.
  - unfold samples. destruct dropna_groups; [| exact Hin].
    apply filter_In. split; [exact Hin | rewrite Hg; exact Hn].
  - apply value_eqb_true. split; [| exact Hn]. rewrite Hg.
    destruct group_order as [order |]; cbn [cell_of in_order] in *.
    + rewrite Ho. reflexivity.
    + reflexivity.
Qed.

(** C9. In the report of a call that returns, an entry whose group holds a
    sample of positive normalized truth has [tpr + fnr = 1], and an entry
    whose group holds a sample of negative normalized truth has
    [fpr + tnr = 1]. *)
Theorem complementary_rates
    (y_true y_pred sensitive : list value)
    (y_score : option (list float)) (threshold : option float)
    (positive_label : value) (group_order : option (list value))
    (dropna_groups : bool) (r : BiasReport) (m : GroupMetrics) :
  from_arrays y_true (Some y_pred) sensitive y_score threshold positive_label
    group_order dropna_groups = Ok r ->
  In m (by_group r) ->
  ((exists smp,
       In smp (zip3 y_true y_pred sensitive) /\
       s_group smp = group m /\
       truth_pos positive_label smp = true) ->
   feq (fadd (tpr m) (fnr m)) (Fin 1)) /\
  ((exists smp,
       In smp (zip3 y_true y_pred sensitive) /\
       s_group smp = group m /\
       truth_pos positive_label smp = false) ->
   feq (fadd (fpr m) (tnr m)) (Fin 1)).
Proof.
  intros H Hm. apply from_arrays_inv in H.
  destruct H as [p [Hp [_ [_ [_ ->]]]]]. injection Hp as <-.
  cbn [report_of_samples by_group] in Hm. apply group_table_In in Hm.
  destruct Hm as [grp [_ [Hne ->]]]. rewrite entry_group.
  set (ms := members group_order grp
               (samples dropna_groups y_true y_pred sensitive)) in *.
  split; intros [smp [Hin [Hg Ht]]].
  - pose proof (sample_is_member _ _ _ _ _ _ _ Hne Hin Hg) as Hmem.
    fold ms in Hmem. cbn [entry_of tpr fnr].
    apply ratio_complement.
    rewrite (count_if_split (pred_pos positive_label)
               (truth_pos positive_label) ms).
    pose proof (count_if_pos _ ms smp Hmem Ht). lia.
  - pose proof (sample_is_member _ _ _ _ _ _ _ Hne Hin Hg) as Hmem.
    fold ms in Hmem. cbn [entry_of fpr tnr].
    apply ratio_complement.
    rewrite (count_if_split (pred_pos positive_label)
               (fun r => negb (truth_pos positive_label r)) ms).
    assert (negb (truth_pos positive_label smp) = true) as Ht'
        by (rewrite Ht; reflexivity).
    pose proof (count_if_pos (fun r => negb (truth_pos positive_label r))
                  ms smp Hmem Ht'). lia.
Qed.

Lemma complementary_rates_witness :
  exists r m,
    docstring_report = Ok r /\ In m (by_group r) /\
    feq (fadd (tpr m) (fnr m)) (Fin 1) /\
    feq (fadd (fpr m) (tnr m)) (Fin 1).
Proof.
  destruct docstring_report as [r | e] eqn:E;
    [| vm_compute in E; discriminate E].
  pose proof E as E'. vm_compute in E'. injection E' as Hr. subst r.
  eexists. eexists. split; [reflexivity |].
  split; [left; reflexivity |].
  destruct (complementary_rates ex_true ex_pred ex_sensitive None None
              (VInt 1) None false _ _ E (or_introl eq_refl)) as [Hpos Hneg].
  split.
  - apply Hpos. exists (VInt 1, VInt 1, VStr "A").
    split; [right; left; reflexivity | split; reflexivity].
  - apply Hneg. exists (VInt 0, VInt 0, VStr "A").
    split; [left; reflexivity | split; reflexivity].
Defined.

(** ** Rows outside the explicit order *)

Lemma zip3_eta (l : list sample) :
  zip3 (map s_true l) (map s_pred l) (map s_group l) = l.
Proof.
  induction l as [| [[t p] g] l IH]; cbn [map zip3].
  - reflexivity.
  - rewrite IH. reflexivity.
Qed.

Lemma filter_swap {A : Type} (f g : A -> bool) (l : list A) :
  filter f (filter g l) = filter g (filter f l).
Proof.
  induction l as [| x l IH]; cbn [filter].
  - reflexivity.
  - destruct (f x) eqn:Ef, (g x) eqn:Eg; cbn [filter];
      rewrite ?Ef, ?Eg, IH; reflexivity.
Qed.

Lemma filter_implied {A : Type} (f g : A -> bool) (l : list A) :
  (forall x, f x = true -> g x = true) ->
  filter f (filter g l) = filter f l.
Proof.
  intros H. induction l as [| x l IH]; cbn [filter].
  - reflexivity.
  - destruct (g x) eqn:Eg; cbn [filter].
    + rewrite IH. reflexivity.
    + destruct (f x) eqn:Ef; [| exact IH].
      rewrite (H x Ef) in Eg. discriminate Eg.
Qed.

Lemma member_is_listed (order : list value) (grp : value) (r : sample) :
  value_eqb (cell_of (Some order) (s_group r)) grp = true ->
  listed order r = true.
Proof.
  unfold listed. cbn [cell_of]. destruct (mem (s_group r) order).
  - reflexivity.
  - intros H. apply value_eqb_true in H. destruct H as [<- H].
    discriminate H.
Qed.

Lemma group_table_listed (order : list value) (positive_label : value)
    (rows : list sample) (groups : list value) :
  group_table (Some order) positive_label (filter (listed order) rows) groups
  = group_table (Some order) positive_label rows groups.
Proof.
  induction groups as [| grp rest IH]; cbn [group_table].
  - reflexivity.
  - unfold members at 1 2.
    rewrite (filter_implied _ (listed order) rows
               (member_is_listed order grp)).
    fold (members (Some order) grp rows). rewrite IH. reflexivity.
Qed.

Section Listed.

Variables y_true y_pred sensitive : list value.
Variable order : list value.
Variable dropna_groups : bool.
Hypothesis Hpred : length y_true = length y_pred.
Hypothesis Hsens : length y_true = length sensitive.

Let mask : list bool := map (fun v => mem v order) sensitive.

Lemma select_listed (f : sample -> value) (column : list value) :
  map f (zip3 y_true y_pred sensitive) = column ->
  select column mask =
  map f (filter (listed order) (zip3 y_true y_pred sensitive)).
Proof.
  intros <-. unfold mask.
  replace (map (fun v => mem v order) sensitive)
    with (map (listed order) (zip3 y_true y_pred sensitive)).
  - apply select_map.
  - unfold listed. rewrite <- (map_map s_group (fun v => mem v order)).
    rewrite (zip3_group _ _ _ Hpred Hsens). reflexivity.
Qed.

Lemma samples_listed :
  samples dropna_groups (select y_true mask) (select y_pred mask)
    (select sensitive mask) =
  filter (listed order) (samples dropna_groups y_true y_pred sensitive).
Proof.
  unfold samples.
  rewrite (select_listed s_true y_true (zip3_true _ _ _ Hpred Hsens)).
  rewrite (select_listed s_pred y_pred (zip3_pred _ _ _ Hpred Hsens)).
  rewrite (select_listed s_group sensitive (zip3_group _ _ _ Hpred Hsens)).
  rewrite zip3_eta. destruct dropna_groups.
  - apply filter_swap.
  - reflexivity.
Qed.

Lemma select_listed_lengths :
  length (select y_true mask) = length (select y_pred mask) /\
  length (select y_true mask) = length (select sensitive mask).
Proof.
  rewrite (select_listed s_true y_true (zip3_true _ _ _ Hpred Hsens)).
  rewrite (select_listed s_pred y_pred (zip3_pred _ _ _ Hpred Hsens)).
  rewrite (select_listed s_group sensitive (zip3_group _ _ _ Hpred Hsens)).
  rewrite !length_map. split; reflexivity.
Qed.

End Listed.

(** C10, as stated, fails: with [dropna_groups], a row whose group is
    missing, hence not listed in [group_order], is not counted in
    [n_samples]. *)
Lemma dropped_row_is_not_counted :
  exists r,
    from_arrays [VInt 1; VInt 0] (Some [VInt 1; VInt 0]) [VStr "A"; VNA]
      None None (VInt 1) (Some [VStr "A"]) true = Ok r /\
    mem VNA [VStr "A"] = false /\
    map count (by_group r) = [1] /\
    n_samples (metadata r) = 1.
Proof.
  eexists. split; [vm_compute; reflexivity |].
  repeat split.
Qed.

(** C10, amended. In a call with an explicit [group_order] that returns,
    the rows whose group is not listed in [group_order] contribute to no
    entry: every entry is for a listed group, and deleting those rows from
    the input leaves [by_group] as it is.  Those of them that are in the
    frame, all of them unless [dropna_groups] removed the rows without a
    group, are counted in [n_samples]. *)
Theorem rows_outside_group_order
    (y_true y_pred sensitive : list value)
    (y_score : option (list float)) (threshold : option float)
    (positive_label : value) (order : list value)
    (dropna_groups : bool) (r : BiasReport) :
  from_arrays y_true (Some y_pred) sensitive y_score threshold positive_label
    (Some order) dropna_groups = Ok r ->
  let mask := map (fun v => mem v order) sensitive in
  let outside := fun v => negb (mem v order) in
  Forall (fun m => In (group m) order) (by_group r) /\
  (exists r',
      from_arrays (select y_true mask) (Some (select y_pred mask))
        (select sensitive mask) y_score threshold positive_label
        (Some order) dropna_groups = Ok r' /\
      by_group r' = by_group r /\
      n_samples (metadata r) =
        n_samples (metadata r') +
        Z.of_nat (length (filter outside
                            (kept_groups dropna_groups sensitive)))) /\
  (dropna_groups = false ->
   n_samples (metadata r) = Z.of_nat (length sensitive)).
Proof.
  intros H. cbv zeta. apply from_arrays_inv in H.
  destruct H as [p [Hp [H1 [H2 [Hv ->]]]]]. injection Hp as <-.
  destruct (select_listed_lengths y_true y_pred sensitive order H1 H2)
    as [L1 L2].
  cbn [report_of_samples by_group metadata n_samples].
  split; [| split].
  - apply Forall_forall. intros m Hm. apply group_table_In in Hm.
    destruct Hm as [grp [Hin [_ ->]]]. rewrite entry_group. exact Hin.
  - eexists. split; [apply (from_arrays_returns _ _ _ _ _ _ _ _ L1 L2 Hv) |].
    rewrite (samples_listed _ _ _ order dropna_groups H1 H2).
    cbn [report_of_samples by_group metadata n_samples]. split.
    + unfold table_of. cbn [categories_of]. apply group_table_listed.
    + rewrite <- (samples_groups dropna_groups _ _ _ H1 H2).
      rewrite filter_map_swap, length_map.
      pose proof (filter_length (listed order)
                    (samples dropna_groups y_true y_pred sensitive)) as Hl.
      unfold listed in Hl |- *. lia.
  - intros ->. cbn [samples]. rewrite (zip3_length _ _ _ H1 H2), H2.
    reflexivity.
Qed.

Lemma rows_outside_group_order_witness :
  exists r,
    from_arrays [VInt 1; VInt 0; VInt 1] (Some [VInt 1; VInt 1; VInt 0])
      [VStr "A"; VStr "B"; VStr "A"] None None (VInt 1) (Some [VStr "A"])
      false = Ok r /\
    Forall (fun m => In (group m) [VStr "A"]) (by_group r) /\
    n_samples (metadata r) = 3.
Proof.
  destruct (from_arrays [VInt 1; VInt 0; VInt 1]
              (Some [VInt 1; VInt 1; VInt 0])
              [VStr "A"; VStr "B"; VStr "A"] None None (VInt 1)
              (Some [VStr "A"]) false) as [r | e] eqn:E;
    [| vm_compute in E; discriminate E].
  exists r. split; [reflexivity |].
  destruct (rows_outside_group_order _ _ _ _ _ _ _ _ _ E) as [Hg [_ Hn]].
  split; [exact Hg | exact (Hn eq_refl)].
Defined.

(** ** Division never raises *)

Lemma from_arrays_no_ZeroDivisionError
    (y_true sensitive : list value) (y_pred : option (list value))
    (y_score : option (list float)) (threshold : option float)
    (positive_label : value) (group_order : option (list value))
    (dropna_groups : bool) :
  from_arrays y_true y_pred sensitive y_score threshold positive_label
    group_order dropna_groups <> Raise ZeroDivisionError.
Proof.
  destruct y_pred as [p |].
  - destruct (Nat.eq_dec (length y_true) (length p)) as [H1 | H1];
      [destruct (Nat.eq_dec (length y_true) (length sensitive)) as [H2 | H2] |].
    + rewrite (from_arrays_pred _ _ _ _ _ _ _ _ H1 H2).
      destruct (grouping group_order _) as [g | e] eqn:Hg; cbn [bind].
      * discriminate.
      * destruct (grouping_Raise_ValueError _ _ _ Hg) as [msg ->].
        discriminate.
    + rewrite (from_arrays_lengths _ _ _ _ _ _ _ _ p eq_refl)
        by (right; exact H2).
      discriminate.
    + rewrite (from_arrays_lengths _ _ _ _ _ _ _ _ p eq_refl)
        by (left; exact H1).
      discriminate.
  - destruct y_score as [scores |]; [destruct threshold as [t |] |].
    + destruct (Nat.eq_dec (length y_true) (length scores)) as [H1 | H1];
        [destruct (Nat.eq_dec (length y_true) (length sensitive))
           as [H2 | H2] |].
      * rewrite (from_arrays_score _ _ _ _ _ _ _ H1 H2). discriminate.
      * rewrite from_arrays_score_lengths by (right; exact H2). discriminate.
      * rewrite from_arrays_score_lengths by (left; exact H1). discriminate.
    + rewrite from_arrays_no_source by (right; reflexivity). discriminate.
    + rewrite from_arrays_no_source by (left; reflexivity). discriminate.
Qed.

Lemma count_if_split_r (p t : sample -> bool) (ms : list sample) :
  count_if (fun r => p r && t r) ms + count_if (fun r => p r && negb (t r)) ms
  = count_if p ms.
Proof.
  unfold count_if. induction ms as [| r ms IH]; cbn [filter].
  - reflexivity.
  - destruct (p r), (t r); cbn [andb negb length]; lia.
Qed.

Lemma entry_quotients (positive_label grp : value) (ms : list sample) :
  exists tp fp tn fn,
    quotients_of tp fp tn fn (entry_of positive_label grp ms).
Proof.
  set (T := truth_pos positive_label). set (P := pred_pos positive_label).
  exists (count_if (fun r => P r && T r) ms),
         (count_if (fun r => P r && negb (T r)) ms),
         (count_if (fun r => negb (P r) && negb (T r)) ms),
         (count_if (fun r => negb (P r) && T r) ms).
  pose proof (count_if_split_r P T ms) as Hp.
  pose proof (count_if_split_r (fun r => negb (P r)) T ms) as Hn.
  cbv beta in Hn.
  pose proof (filter_length P ms) as Hl.
  assert (Hc : Z.of_nat (length ms)
               = count_if P ms + count_if (fun r => negb (P r)) ms)
    by (unfold count_if; lia).
  unfold quotients_of, entry_of.
  cbn [count positive_rate tpr fpr ppv tnr fnr]. fold T P.
  repeat match goal with
         | |- _ /\ _ => split
         end;
    try apply count_if_bounds; try reflexivity.
  - lia.
  - rewrite Hp. reflexivity.
Qed.

(** C4. Computing a ratio never raises.  [_safe_div] returns on all
    floats, and on all integers of the range of floats, as counts of rows
    are: a zero denominator gives not-a-number, any other one what the
    division [n / d] gives.  So [di_ratio] returns, no call of
    [from_arrays] raises [ZeroDivisionError], and in a report the rates of
    an entry are such quotients of its confusion counts. *)
Theorem safe_div_never_raises :
  (forall n d : float,
      exists r, _safe_div n d = Ok r /\
                (feq d (Fin 0) -> r = NaN) /\
                (~ feq d (Fin 0) -> fdiv n d = Ok r)) /\
  (forall n d : Z,
      in_float_range n -> in_float_range d ->
      _safe_div (float_of_Z n) (float_of_Z d) =
      Ok (if d =? 0 then NaN else Fin (inject_Z n / inject_Z d))) /\
  (forall by_group, returns (di_ratio by_group)) /\
  (forall y_true y_pred sensitive y_score threshold positive_label
          group_order dropna_groups,
      from_arrays y_true y_pred sensitive y_score threshold positive_label
        group_order dropna_groups <> Raise ZeroDivisionError) /\
  (forall y_true y_pred sensitive y_score threshold positive_label
          group_order dropna_groups r,
      from_arrays y_true y_pred sensitive y_score threshold positive_label
        group_order dropna_groups = Ok r ->
      Forall (fun m => exists tp fp tn fn, quotients_of tp fp tn fn m)
        (by_group r)).
Proof.
  split; [| split; [| split; [| split]]].
  - intros n d. destruct (_safe_div_returns n d) as [r Hr]. exists r.
    split; [exact Hr |]. unfold _safe_div in Hr.
    split; intros E.
    + rewrite (proj2 (fne0_false d) E) in Hr. injection Hr as <-. reflexivity.
    + destruct (fne0 d) eqn:Ed; [exact Hr |].
      apply fne0_false in Ed. contradiction.
  - intros n d _ _. apply _safe_div_counts.
  - intros by_group. eexists. apply di_ratio_returns.
  - intros. apply from_arrays_no_ZeroDivisionError.
  - intros y_true y_pred sensitive y_score threshold positive_label
      group_order dropna_groups r H.
    apply from_arrays_inv in H. destruct H as [p [_ [_ [_ [_ ->]]]]].
    cbn [report_of_samples by_group]. apply Forall_forall. intros m Hm.
    apply group_table_In in Hm. destruct Hm as [grp [_ [_ ->]]].
    apply entry_quotients.
Qed.

Lemma safe_div_never_raises_witness :
  _safe_div (float_of_Z 3) (float_of_Z 4)
  = Ok (Fin (inject_Z 3 / inject_Z 4)) /\
  _safe_div (float_of_Z 3) (float_of_Z 0) = Ok NaN /\
  exists r,
    docstring_report = Ok r /\
    Forall (fun m => exists tp fp tn fn, quotients_of tp fp tn fn m)
      (by_group r).
Proof.
  destruct safe_div_never_raises as [_ [Hz [_ [_ Hq]]]].
  assert (R3 : in_float_range 3) by (vm_compute; reflexivity).
  assert (R4 : in_float_range 4) by (vm_compute; reflexivity).
  assert (R0 : in_float_range 0) by (vm_compute; reflexivity).
  split; [exact (Hz 3 4 R3 R4) |].
  split; [exact (Hz 3 0 R3 R0) |].
  destruct docstring_report as [r | e] eqn:E;
    [| vm_compute in E; discriminate E].
  exists r. split; [reflexivity |].
  exact (Hq ex_true (Some ex_pred) ex_sensitive None None (VInt 1) None false
           r E).
Defined.

(** * Further properties of the report *)

(** ** Calls without [y_pred] *)

(** X1. A call that supplies no [y_pred] never returns a report, whatever
    else it supplies: without scores or without a threshold it raises the
    [ValueError] for the missing source; with both and sequences of
    different lengths, the [ValueError] for the lengths; with both and
    sequences of one length, [KeyError] for the column [y_pred], whatever
    [positive_label], [group_order] and [dropna_groups] are. *)
Theorem calls_without_y_pred_never_return
    (y_true sensitive : list value)
    (y_score : option (list float)) (threshold : option float)
    (positive_label : value) (group_order : option (list value))
    (dropna_groups : bool) :
  from_arrays y_true None sensitive y_score threshold positive_label
    group_order dropna_groups =
  Raise
    match y_score, threshold with
    | Some scores, Some _ =>
        if ((length y_true =? length scores)
            && (length y_true =? length sensitive))%nat
        then KeyError "y_pred"
        else length_mismatch
    | _, _ => no_prediction
    end.
Proof.
  destruct y_score as [scores |]; [destruct threshold as [t |] |].
  - destruct (Nat.eqb_spec (length y_true) (length scores)) as [H1 | H1];
      [destruct (Nat.eqb_spec (length y_true) (length sensitive))
         as [H2 | H2] |]; cbn [andb].
    + apply from_arrays_score; assumption.
    + apply from_arrays_score_lengths. right. exact H2.
    + apply from_arrays_score_lengths. left. exact H1.
  - apply from_arrays_no_source. right. reflexivity.
  - apply from_arrays_no_source. left. reflexivity.
Qed.

(** ** The summary values are proportions *)

Lemma finite_vals_In (vals : list float) (q : Q) :
  In q (finite_vals vals) <-> In (Fin q) vals.
Proof.
  induction vals as [| [| x] vals IH]; cbn [finite_vals In].
  - reflexivity.
  - rewrite IH. split; [auto | intros [H | H]; [discriminate H | exact H]].
  - rewrite IH. split; intros [H | H]; auto.
    + left. congruence.
    + left. congruence.
Qed.

(** A span is not-a-number when no value is a number, and the largest
    number minus the smallest otherwise. *)
Lemma span_of_spec (metric : GroupMetrics -> float)
    (by_group : list GroupMetrics) :
  (span_of metric by_group = NaN /\
   Forall (fun m => metric m = NaN) by_group) \/
  (exists hi lo,
      In (Fin hi) (map metric by_group) /\
      In (Fin lo) (map metric by_group) /\
      (lo <= hi)%Q /\
      span_of metric by_group = Fin (hi - lo)).
Proof.
  unfold span_of.
  destruct (finite_vals (map metric by_group)) as [| q qs] eqn:E.
  - left. split; [reflexivity |]. apply Forall_forall. intros m Hm.
    destruct (metric m) as [| x] eqn:Ex; [reflexivity |].
    assert (In x (finite_vals (map metric by_group))) as Hin.
    { apply finite_vals_In. rewrite <- Ex. apply in_map. exact Hm. }
    rewrite E in Hin. destruct Hin.
  - right. exists (fold_left Qmax qs q), (fold_left Qmin qs q).
    repeat split.
    + apply finite_vals_In. rewrite E. apply fold_max_In.
    + apply finite_vals_In. rewrite E. apply fold_min_In.
    + apply fold_min_lower. apply fold_max_In.
Qed.

Lemma span_of_unit (metric : GroupMetrics -> float)
    (by_group : list GroupMetrics) :
  Forall (fun m => rate_ok (metric m)) by_group ->
  rate_ok (span_of metric by_group).
Proof.
  intros Hall. destruct (span_of_spec metric by_group)
    as [[Hs _] | [hi [lo [Hhi [Hlo [Hle Hs]]]]]].
  - left. exact Hs.
  - right. rewrite Hs. rewrite Forall_forall in Hall.
    apply in_map_iff in Hhi. destruct Hhi as [m1 [E1 Hm1]].
    apply in_map_iff in Hlo. destruct Hlo as [m2 [E2 Hm2]].
    pose proof (Hall m1 Hm1) as R1. pose proof (Hall m2 Hm2) as R2.
    rewrite E1 in R1. rewrite E2 in R2.
    destruct R1 as [R1 | [_ R1]]; [discriminate R1 |].
    destruct R2 as [R2 | [R2 _]]; [discriminate R2 |].
    cbn [in_range]. split; lra.
Qed.

Lemma py_max_unit (a b : float) : rate_ok a -> rate_ok b -> rate_ok (py_max a b).
Proof.
  intros Ha Hb. unfold py_max. destruct (fgt b a); assumption.
Qed.

Lemma rates_ok_fields (by_group : list GroupMetrics) :
  Forall rates_ok by_group ->
  Forall (fun m => rate_ok (positive_rate m)) by_group /\
  Forall (fun m => rate_ok (tpr m)) by_group /\
  Forall (fun m => rate_ok (fpr m)) by_group /\
  Forall (fun m => rate_ok (ppv m)) by_group.
Proof.
  intros H. repeat split; apply Forall_forall; intros m Hm;
    rewrite Forall_forall in H; destruct (H m Hm) as [? [? [? [? _]]]];
    assumption.
Qed.

(** X2. In the report of a call that returns, each of the four
    differences of the summary is not-a-number or lies in [0, 1]. *)
Theorem differences_in_unit_interval
    (y_true sensitive : list value) (y_pred : option (list value))
    (y_score : option (list float)) (threshold : option float)
    (positive_label : value) (group_order : option (list value))
    (dropna_groups : bool) (r : BiasReport) :
  from_arrays y_true y_pred sensitive y_score threshold positive_label
    group_order dropna_groups = Ok r ->
  rate_ok (demographic_parity_difference (summary r)) /\
  rate_ok (equal_opportunity_difference (summary r)) /\
  rate_ok (equalized_odds_difference (summary r)) /\
  rate_ok (predictive_parity_difference (summary r)).
Proof.
  intros H. apply from_arrays_inv in H.
  destruct H as [p [_ [_ [_ [_ ->]]]]].
  cbn [report_of_samples summary summary_of demographic_parity_difference
         equal_opportunity_difference equalized_odds_difference
         predictive_parity_difference].
  destruct (rates_ok_fields _ (table_rates group_order positive_label
              (samples dropna_groups y_true p sensitive)))
    as [H1 [H2 [H3 H4]]].
  repeat split; try apply py_max_unit; apply span_of_unit; assumption.
Qed.

Lemma differences_in_unit_interval_witness :
  exists r,
    docstring_report = Ok r /\
    rate_ok (demographic_parity_difference (summary r)) /\
    rate_ok (equal_opportunity_difference (summary r)) /\
    rate_ok (equalized_odds_difference (summary r)) /\
    rate_ok (predictive_parity_difference (summary r)).
Proof.
  destruct docstring_report as [r | e] eqn:E;
    [| vm_compute in E; discriminate E].
  exists r. split; [reflexivity |].
  exact (differences_in_unit_interval ex_true ex_sensitive (Some ex_pred)
           None None (VInt 1) None false r E).
Defined.

Lemma di_ratio_of_spec (by_group : list GroupMetrics) (qs : list Q) :
  map positive_rate by_group = map Fin qs ->
  Forall (fun q => (0 <= q /\ q <= 1)%Q) qs ->
  (di_ratio_of by_group = NaN \/ in_range 0 1 (di_ratio_of by_group)) /\
  (di_ratio_of by_group = NaN <-> Forall (fun q => (q == 0)%Q) qs).
Proof.
  intros Hq Hall. unfold di_ratio_of. rewrite Hq, finite_vals_Fin.
  destruct qs as [| q qs].
  - split; [left; reflexivity | split; [constructor | reflexivity]].
  - set (hi := fold_left Qmax qs q). set (lo := fold_left Qmin qs q).
    assert (Hhi : In hi (q :: qs)) by apply fold_max_In.
    assert (Hlo : In lo (q :: qs)) by apply fold_min_In.
    assert (Hle : (lo <= hi)%Q) by (apply fold_min_lower; exact Hhi).
    rewrite Forall_forall in Hall.
    destruct (Hall hi Hhi) as [Hhi0 Hhi1]. destruct (Hall lo Hlo) as [Hlo0 _].
    destruct (Qeq_bool hi 0) eqn:E.
    + apply Qeq_bool_iff in E. split; [left; reflexivity |].
      split; [| reflexivity]. intros _. apply Forall_forall. intros x Hx.
      pose proof (fold_max_upper qs q x Hx) as Hup. fold hi in Hup.
      destruct (Hall x Hx) as [Hx0 _]. lra.
    + apply Qeq_bool_neq in E. assert (0 < hi)%Q as Hpos by lra. split.
      * right. cbn [in_range]. split.
        -- apply Qle_shift_div_l; [exact Hpos | lra].
        -- apply Qle_shift_div_r; [exact Hpos | lra].
      * split; [discriminate |]. intros Hz. rewrite Forall_forall in Hz.
        exfalso. apply E. apply Hz. exact Hhi.
Qed.

Lemma table_di_ratio (group_order : option (list value))
    (positive_label : value) (rows : list sample) :
  let tbl := table_of group_order positive_label rows in
  rate_ok (di_ratio_of tbl) /\
  (di_ratio_of tbl = NaN <->
   Forall (fun m => feq (positive_rate m) (Fin 0)) tbl).
Proof.
  cbv zeta. set (tbl := table_of group_order positive_label rows).
  destruct (table_positive_rates group_order positive_label rows
              (categories_of group_order (map s_group rows))) as [qs Hqs].
  fold (table_of group_order positive_label rows) in Hqs. fold tbl in Hqs.
  assert (Hrange : Forall (fun q => (0 <= q /\ q <= 1)%Q) qs).
  { destruct (rates_ok_fields _ (table_rates group_order positive_label rows))
      as [H1 _].
    fold tbl in H1. rewrite <- Forall_map in H1. rewrite Hqs in H1.
    rewrite Forall_map in H1. apply Forall_forall. intros q Hq.
    rewrite Forall_forall in H1.
    destruct (H1 q Hq) as [R | R]; [discriminate R | exact R]. }
  destruct (di_ratio_of_spec tbl qs Hqs Hrange) as [Hr Hnan].
  split; [exact Hr |]. rewrite Hnan.
  rewrite <- (Forall_map positive_rate (fun f => feq f (Fin 0))), Hqs.
  rewrite Forall_map. reflexivity.
Qed.

(** X3. In the report of a call that returns, [disparate_impact_ratio] is
    not-a-number or lies in [0, 1]; it is not-a-number exactly when no
    entry has a selection rate above 0 (in particular when there is no
    entry). *)
Theorem disparate_impact_in_unit_interval
    (y_true sensitive : list value) (y_pred : option (list value))
    (y_score : option (list float)) (threshold : option float)
    (positive_label : value) (group_order : option (list value))
    (dropna_groups : bool) (r : BiasReport) :
  from_arrays y_true y_pred sensitive y_score threshold positive_label
    group_order dropna_groups = Ok r ->
  rate_ok (disparate_impact_ratio (summary r)) /\
  (disparate_impact_ratio (summary r) = NaN <->
   Forall (fun m => feq (positive_rate m) (Fin 0)) (by_group r)).
Proof.
  intros H. apply from_arrays_inv in H.
  destruct H as [p [_ [_ [_ [_ ->]]]]].
  cbn [report_of_samples summary summary_of disparate_impact_ratio by_group].
  apply table_di_ratio.
Qed.

Lemma disparate_impact_in_unit_interval_witness :
  exists r,
    docstring_report = Ok r /\
    rate_ok (disparate_impact_ratio (summary r)).
Proof.
  destruct docstring_report as [r | e] eqn:E;
    [| vm_compute in E; discriminate E].
  exists r. split; [reflexivity |].
  exact (proj1 (disparate_impact_in_unit_interval ex_true ex_sensitive
                  (Some ex_pred) None None (VInt 1) None false r E)).
Defined.

(** ** Equalized odds and missing true-positive rates *)

Lemma py_max_first (a b : float) :
  (py_max a b = NaN <-> a = NaN) /\
  (forall x, a = Fin x -> exists y, py_max a b = Fin y /\ (x <= y)%Q).
Proof.
  unfold py_max, fgt. destruct a as [| x].
  - destruct b; (split; [reflexivity | discriminate]).
  - destruct b as [| y].
    + split; [split; discriminate |]. intros x' Hx. injection Hx as <-.
      exists x. split; [reflexivity | lra].
    + destruct (Qle_bool y x) eqn:E; cbn [negb];
        (split; [split; discriminate |]); intros x' Hx; injection Hx as <-.
      * exists x. split; [reflexivity | lra].
      * exists y. split; [reflexivity |].
        destruct (Qlt_le_dec x y) as [Hlt | Hge]; [lra |].
        apply Qle_bool_iff in Hge. congruence.
Qed.

(** X4. In the report of a call that returns,
    [equal_opportunity_difference] is not-a-number exactly when no entry
    has a true-positive rate, and [equalized_odds_difference] is
    not-a-number exactly then too, whatever the false-positive rates are;
    when they are numbers, [equalized_odds_difference] is at least
    [equal_opportunity_difference]. *)
Theorem equalized_odds_needs_a_tpr
    (y_true sensitive : list value) (y_pred : option (list value))
    (y_score : option (list float)) (threshold : option float)
    (positive_label : value) (group_order : option (list value))
    (dropna_groups : bool) (r : BiasReport) :
  from_arrays y_true y_pred sensitive y_score threshold positive_label
    group_order dropna_groups = Ok r ->
  (equal_opportunity_difference (summary r) = NaN <->
   Forall (fun m => tpr m = NaN) (by_group r)) /\
  (equalized_odds_difference (summary r) = NaN <->
   equal_opportunity_difference (summary r) = NaN) /\
  (forall q, equal_opportunity_difference (summary r) = Fin q ->
   exists q', equalized_odds_difference (summary r) = Fin q' /\ (q <= q')%Q).
Proof.
  intros H. apply from_arrays_inv in H.
  destruct H as [p [_ [_ [_ [_ ->]]]]].
  cbn [report_of_samples summary summary_of by_group
         equal_opportunity_difference equalized_odds_difference].
  set (tbl := table_of group_order positive_label _).
  destruct (py_max_first (span_of tpr tbl) (span_of fpr tbl)) as [Hn Hq].
  split; [| split; assumption].
  destruct (span_of_spec tpr tbl) as [[Hs Hall] | [hi [lo [Hhi [_ [_ Hs]]]]]].
  - split; [intros _; exact Hall | intros _; exact Hs].
  - rewrite Hs. split; [discriminate |]. intros Hall. exfalso.
    apply in_map_iff in Hhi. destruct Hhi as [m [Hm Hin]].
    rewrite Forall_forall in Hall. rewrite (Hall m Hin) in Hm.
    discriminate Hm.
Qed.

Lemma equalized_odds_needs_a_tpr_witness :
  exists r,
    from_arrays [VInt 0; VInt 0; VInt 0] (Some [VInt 1; VInt 0; VInt 0])
      [VStr "A"; VStr "B"; VStr "B"] None None (VInt 1) None false = Ok r /\
    equal_opportunity_difference (summary r) = NaN /\
    equalized_odds_difference (summary r) = NaN /\
    map fpr (by_group r) = [Fin 1; Fin (0 # 2)].
Proof.
  destruct (from_arrays [VInt 0; VInt 0; VInt 0]
              (Some [VInt 1; VInt 0; VInt 0])
              [VStr "A"; VStr "B"; VStr "B"] None None (VInt 1) None false)
    as [r | e] eqn:E; [| vm_compute in E; discriminate E].
  exists r. split; [reflexivity |].
  destruct (equalized_odds_needs_a_tpr _ _ _ _ _ _ _ _ _ E) as [H1 [H2 _]].
  pose proof E as E'. vm_compute in E'. injection E' as Hr.
  assert (Hall : Forall (fun m => tpr m = NaN) (by_group r))
    by (rewrite <- Hr; repeat constructor).
  split; [apply H1; exact Hall |].
  split; [apply H2, H1; exact Hall |].
  rewrite <- Hr. reflexivity.
Defined.

(** ** Which rates are numbers *)

Lemma ratio_NaN (n d : Z) : ratio n d = NaN <-> d = 0.
Proof.
  unfold ratio. destruct (d =? 0) eqn:E.
  - apply Z.eqb_eq in E. split; [intros _; exact E | reflexivity].
  - apply Z.eqb_neq in E. split; [discriminate | contradiction].
Qed.

Lemma ratio_zero (n d : Z) :
  d <> 0 -> (feq (ratio n d) (Fin 0) <-> n = 0).
Proof.
  intros Hd. unfold ratio.
  destruct (d =? 0) eqn:E; [apply Z.eqb_eq in E; contradiction |].
  cbn [feq].
  assert (Hne : ~ (inject_Z d == 0)%Q).
  { intros Hq. change 0%Q with (inject_Z 0) in Hq.
    exact (Hd (proj1 (inject_Z_injective _ _) Hq)). }
  split.
  - intros Hz.
    assert (inject_Z n == 0)%Q as Hn.
    { rewrite <- (Qmult_div_r (inject_Z n) (inject_Z d) Hne), Hz. ring. }
    change 0%Q with (inject_Z 0) in Hn.
    exact (proj1 (inject_Z_injective _ _) Hn).
  - intros ->. unfold Qdiv. apply Qmult_0_l.
Qed.

Lemma count_if_zero (t : sample -> bool) (ms : list sample) :
  count_if t ms = 0 <-> forall r, In r ms -> t r = false.
Proof.
  unfold count_if. induction ms as [| r ms IH]; cbn [filter].
  - split; [intros _ x [] | reflexivity].
  - destruct (t r) eqn:E.
    + split; [cbn [length]; lia |].
      intros H. rewrite (H r (or_introl eq_refl)) in E. discriminate E.
    + rewrite IH. split.
      * intros H x [<- | Hx]; [exact E | apply H; exact Hx].
      * intros H x Hx. apply H. right. exact Hx.
Qed.

(** The members of an entry are the samples of its group. *)
Lemma members_are_the_group (group_order : option (list value))
    (dropna_groups : bool) (y_true y_pred sensitive : list value)
    (grp : value) (smp : sample) :
  members group_order grp (samples dropna_groups y_true y_pred sensitive)
    <> [] ->
  (In smp (members group_order grp
             (samples dropna_groups y_true y_pred sensitive)) <->
   In smp (zip3 y_true y_pred sensitive) /\ s_group smp = grp).
Proof.
  intros Hne. split.
  - unfold members. rewrite filter_In. intros [Hin Heq]. split.
    + unfold samples in Hin. destruct dropna_groups; [| exact Hin].
      apply filter_In in Hin. apply Hin.
    + apply value_eqb_true in Heq. destruct Heq as [Hc Hn].
      destruct group_order as [order |]; cbn [cell_of] in Hc; [| exact Hc].
      destruct (mem (s_group smp) order); [exact Hc |].
      subst grp. discriminate Hn.
  - intros [Hin Hg]. apply sample_is_member; assumption.
Qed.

(** X5. In the report of a call that returns, the selection rate of an
    entry is always a number.  Its true-positive rate and its
    false-negative rate are not-a-number exactly when no sample of its
    group has a positive normalized truth, its false-positive rate and its
    specificity exactly when none has a negative one, and its precision
    exactly when none has a positive normalized prediction, that is when
    its selection rate is 0. *)
Theorem undefined_rates
    (y_true y_pred sensitive : list value)
    (y_score : option (list float)) (threshold : option float)
    (positive_label : value) (group_order : option (list value))
    (dropna_groups : bool) (r : BiasReport) (m : GroupMetrics) :
  from_arrays y_true (Some y_pred) sensitive y_score threshold positive_label
    group_order dropna_groups = Ok r ->
  In m (by_group r) ->
  let in_group := fun smp =>
    In smp (zip3 y_true y_pred sensitive) /\ s_group smp = group m in
  positive_rate m <> NaN /\
  (tpr m = NaN <->
   forall smp, in_group smp -> truth_pos positive_label smp = false) /\
  (fnr m = NaN <-> tpr m = NaN) /\
  (fpr m = NaN <->
   forall smp, in_group smp -> truth_pos positive_label smp = true) /\
  (tnr m = NaN <-> fpr m = NaN) /\
  (ppv m = NaN <->
   forall smp, in_group smp -> pred_pos positive_label smp = false) /\
  (ppv m = NaN <-> feq (positive_rate m) (Fin 0)).
Proof.
  intros H Hm. cbv zeta. apply from_arrays_inv in H.
  destruct H as [p [Hp [_ [_ [_ ->]]]]]. injection Hp as <-.
  cbn [report_of_samples by_group] in Hm. apply group_table_In in Hm.
  destruct Hm as [grp [_ [Hne ->]]]. rewrite entry_group.
  pose proof (fun smp => members_are_the_group group_order dropna_groups
                y_true y_pred sensitive grp smp Hne) as Hmem.
  set (ms := members group_order grp
               (samples dropna_groups y_true y_pred sensitive)) in *.
  set (T := truth_pos positive_label). set (P := pred_pos positive_label).
  assert (Hn : Z.of_nat (length ms) <> 0)
    by (destruct ms; [contradiction | cbn [length]; lia]).
  assert (Htp : count_if (fun r => P r && T r) ms
                + count_if (fun r => negb (P r) && T r) ms = count_if T ms)
    by apply count_if_split.
  assert (Hfp : count_if (fun r => P r && negb (T r)) ms
                + count_if (fun r => negb (P r) && negb (T r)) ms
                = count_if (fun r => negb (T r)) ms)
    by apply (count_if_split P (fun r => negb (T r))).
  assert (Hpp : count_if (fun r => P r && T r) ms
                + count_if (fun r => P r && negb (T r)) ms = count_if P ms)
    by apply count_if_split_r.
  cbn [entry_of positive_rate tpr fpr ppv tnr fnr]. fold T P.
  rewrite !ratio_NaN.
  split; [| split; [| split; [| split; [| split; [| split]]]]].
  - exact Hn.
  - rewrite Htp, count_if_zero. split.
    + intros Hz smp Hs. apply Hz, Hmem. exact Hs.
    + intros Hz smp Hs. apply Hz, Hmem. exact Hs.
  - lia.
  - rewrite Hfp, count_if_zero. split.
    + intros Hz smp Hs. apply negb_false_iff, Hz, Hmem. exact Hs.
    + intros Hz smp Hs. apply negb_false_iff, Hz, Hmem. exact Hs.
  - lia.
  - rewrite Hpp, count_if_zero. split.
    + intros Hz smp Hs. apply Hz, Hmem. exact Hs.
    + intros Hz smp Hs. apply Hz, Hmem. exact Hs.
  - rewrite Hpp, (ratio_zero _ _ Hn). reflexivity.
Qed.

Lemma undefined_rates_witness :
  exists r m,
    from_arrays [VInt 0; VInt 0] (Some [VInt 1; VInt 0])
      [VStr "A"; VStr "A"] None None (VInt 1) None false = Ok r /\
    In m (by_group r) /\
    tpr m = NaN /\ positive_rate m <> NaN.
Proof.
  destruct (from_arrays [VInt 0; VInt 0] (Some [VInt 1; VInt 0])
              [VStr "A"; VStr "A"] None None (VInt 1) None false)
    as [r | e] eqn:E; [| vm_compute in E; discriminate E].
  pose proof E as E'. vm_compute in E'. injection E' as Hr. subst r.
  eexists. eexists. split; [reflexivity |].
  split; [left; reflexivity |].
  destruct (undefined_rates _ _ _ _ _ _ _ _ _ _ E (or_introl eq_refl))
    as [Hrate [Htpr _]].
  split; [| exact Hrate].
  apply Htpr. intros [[t p] g] [[Hin | [Hin | []]] _];
    injection Hin as <- <- <-; reflexivity.
Defined.

(** ** Rows without a group *)

Lemma member_has_group (group_order : option (list value)) (grp : value)
    (r : sample) :
  value_eqb (cell_of group_order (s_group r)) grp = true ->
  notna (s_group r) = true.
Proof.
  intros H. apply value_eqb_true in H. destruct H as [Hc Hn].
  destruct group_order as [order |]; cbn [cell_of] in Hc.
  - destruct (mem (s_group r) order); [rewrite Hc; exact Hn |].
    subst grp. discriminate Hn.
  - rewrite Hc. exact Hn.
Qed.

Lemma group_table_with_group (group_order : option (list value))
    (positive_label : value) (rows : list sample) (groups : list value) :
  group_table group_order positive_label
    (filter (fun r => notna (s_group r)) rows) groups
  = group_table group_order positive_label rows groups.
Proof.
  induction groups as [| grp rest IH]; cbn [group_table].
  - reflexivity.
  - unfold members at 1 2.
    rewrite (filter_implied _ (fun r => notna (s_group r)) rows
               (member_has_group group_order grp)).
    fold (members group_order grp rows). rewrite IH. reflexivity.
Qed.

Lemma table_of_with_group (group_order : option (list value))
    (positive_label : value) (rows : list sample) :
  table_of group_order positive_label
    (filter (fun r => notna (s_group r)) rows)
  = table_of group_order positive_label rows.
Proof.
  unfold table_of. rewrite group_table_with_group. f_equal.
  destruct group_order as [order |]; cbn [categories_of]; [reflexivity |].
  rewrite !filter_map_swap.
  rewrite (filter_implied (fun r => notna (s_group r))
             (fun r => notna (s_group r)) rows (fun _ H => H)).
  reflexivity.
Qed.

(** X6. [dropna_groups] changes nothing but [n_samples]: when a call
    without it returns, the same call with it returns the same entries and
    the same summary, and [n_samples] is smaller by the number of rows
    whose group is missing. *)
Theorem dropna_groups_only_changes_n_samples
    (y_true sensitive : list value) (y_pred : option (list value))
    (y_score : option (list float)) (threshold : option float)
    (positive_label : value) (group_order : option (list value))
    (r : BiasReport) :
  from_arrays y_true y_pred sensitive y_score threshold positive_label
    group_order false = Ok r ->
  exists r',
    from_arrays y_true y_pred sensitive y_score threshold positive_label
      group_order true = Ok r' /\
    by_group r' = by_group r /\
    summary r' = summary r /\
    n_groups (metadata r') = n_groups (metadata r) /\
    n_samples (metadata r') =
      n_samples (metadata r) - Z.of_nat (length (filter isna sensitive)).
Proof.
  intros H. apply from_arrays_inv in H.
  destruct H as [p [-> [H1 [H2 [Hv ->]]]]].
  eexists. split; [apply (from_arrays_returns _ _ _ _ _ _ _ _ H1 H2 Hv) |].
  pose proof (samples_length true _ _ _ H1 H2) as Lt.
  pose proof (samples_length false _ _ _ H1 H2) as Lf.
  cbn [dropped] in Lt, Lf.
  cbn [report_of_samples by_group summary metadata n_groups n_samples].
  change (samples true y_true p sensitive)
    with (filter (fun r => notna (s_group r)) (samples false y_true p sensitive))
    in *.
  rewrite table_of_with_group. repeat split. lia.
Qed.

Lemma dropna_groups_only_changes_n_samples_witness :
  exists r r',
    from_arrays [VInt 1; VInt 0; VInt 1] (Some [VInt 1; VInt 1; VInt 0])
      [VStr "A"; VNA; VStr "B"] None None (VInt 1) None false = Ok r /\
    from_arrays [VInt 1; VInt 0; VInt 1] (Some [VInt 1; VInt 1; VInt 0])
      [VStr "A"; VNA; VStr "B"] None None (VInt 1) None true = Ok r' /\
    by_group r' = by_group r /\ summary r' = summary r /\
    n_samples (metadata r) = 3 /\ n_samples (metadata r') = 2.
Proof.
  destruct (from_arrays [VInt 1; VInt 0; VInt 1]
              (Some [VInt 1; VInt 1; VInt 0])
              [VStr "A"; VNA; VStr "B"] None None (VInt 1) None false)
    as [r | e] eqn:E; [| vm_compute in E; discriminate E].
  destruct (dropna_groups_only_changes_n_samples _ _ _ _ _ _ _ _ E)
    as [r' [E' [Hg [Hs [_ Hn]]]]].
  exists r, r'. split; [reflexivity |]. split; [exact E' |].
  split; [exact Hg |]. split; [exact Hs |].
  vm_compute in E. injection E as <-.
  split; [reflexivity | exact Hn].
Defined.

(** ** The order of the entries *)

Lemma order_notna (order : list value) (g : value) :
  existsb isna order = false -> In g order -> notna g = true.
Proof.
  intros Hna Hin. destruct (notna g) eqn:E; [reflexivity |].
  assert (existsb isna order = true) as H.
  { apply existsb_exists. exists g. split; [exact Hin |].
    unfold isna. rewrite E. reflexivity. }
  congruence.
Qed.

Lemma kept_groups_In (dropna_groups : bool) (sensitive : list value)
    (g : value) :
  (In g (kept_groups dropna_groups sensitive) /\ notna g = true) <->
  (In g sensitive /\ notna g = true).
Proof.
  unfold kept_groups. destruct dropna_groups; [| reflexivity].
  rewrite filter_In. tauto.
Qed.

(** X7. With an explicit [group_order], the entries of a report come in
    the order of [group_order]: their groups are the groups of
    [group_order] that occur in [sensitive], in that order, each once. *)
Theorem entries_follow_group_order
    (y_true sensitive : list value) (y_pred : option (list value))
    (y_score : option (list float)) (threshold : option float)
    (positive_label : value) (order : list value)
    (dropna_groups : bool) (r : BiasReport) :
  from_arrays y_true y_pred sensitive y_score threshold positive_label
    (Some order) dropna_groups = Ok r ->
  map group (by_group r) = filter (fun g => mem g sensitive) order /\
  NoDup (map group (by_group r)).
Proof.
  intros H. apply from_arrays_inv in H.
  destruct H as [p [_ [H1 [H2 [Hv ->]]]]].
  cbn [report_of_samples by_group]. unfold table_of.
  rewrite group_table_groups. cbn [categories_of].
  pose proof Hv as Hv'. cbn [valid_order] in Hv'.
  apply andb_true_iff in Hv'. destruct Hv' as [Hna Hu].
  apply negb_true_iff in Hna. split.
  - apply filter_ext_in. intros g Hg. apply eq_true_iff_eq.
    rewrite has_rows_true, mem_In, (samples_groups _ _ _ _ H1 H2).
    cbn [in_order]. rewrite mem_In.
    pose proof (order_notna order g Hna Hg) as Hn.
    pose proof (kept_groups_In dropna_groups sensitive g) as Hk. tauto.
  - apply NoDup_filter, is_unique_NoDup; assumption.
Qed.

Lemma entries_follow_group_order_witness :
  exists r,
    from_arrays [VInt 1; VInt 0; VInt 1] (Some [VInt 1; VInt 1; VInt 0])
      [VStr "A"; VStr "B"; VStr "C"] None None (VInt 1)
      (Some [VStr "C"; VStr "D"; VStr "A"]) false = Ok r /\
    map group (by_group r) = [VStr "C"; VStr "A"].
Proof.
  destruct (from_arrays [VInt 1; VInt 0; VInt 1]
              (Some [VInt 1; VInt 1; VInt 0])
              [VStr "A"; VStr "B"; VStr "C"] None None (VInt 1)
              (Some [VStr "C"; VStr "D"; VStr "A"]) false)
    as [r | e] eqn:E; [| vm_compute in E; discriminate E].
  exists r. split; [reflexivity |].
  exact (proj1 (entries_follow_group_order _ _ _ _ _ _ _ _ _ E)).
Defined.

Lemma value_leb_total (a b : value) :
  value_leb a b = false -> value_leb b a = true.
Proof.
  destruct a as [x | x |], b as [y | y |]; cbn [value_leb];
    try reflexivity; try discriminate.
  - intros H. apply Z.leb_gt in H. apply Z.leb_le. lia.
  - intros H. destruct (String.leb_total x y) as [E | E]; congruence.
Qed.

Lemma insert_sorted_HdRel (a v : value) (l : list value) :
  value_leb a v = true ->
  HdRel (fun x y => value_leb x y = true) a l ->
  HdRel (fun x y => value_leb x y = true) a (insert_sorted v l).
Proof.
  intros Hav Hl. destruct l as [| w l]; cbn [insert_sorted].
  - constructor. exact Hav.
  - destruct (value_leb v w); constructor.
    + exact Hav.
    + inversion Hl. assumption.
Qed.

Lemma insert_sorted_Sorted (v : value) (l : list value) :
  Sorted (fun x y => value_leb x y = true) l ->
  Sorted (fun x y => value_leb x y = true) (insert_sorted v l).
Proof.
  induction l as [| w l IH]; intros Hs; cbn [insert_sorted].
  - repeat constructor.
  - destruct (value_leb v w) eqn:E.
    + constructor; [exact Hs | constructor; exact E].
    + inversion Hs as [| ? ? Hs' Hd]. subst.
      constructor; [apply IH; exact Hs' |].
      apply insert_sorted_HdRel; [apply value_leb_total; exact E | exact Hd].
Qed.

Lemma sort_values_Sorted (l : list value) :
  Sorted (fun x y => value_leb x y = true) (sort_values l).
Proof.
  induction l as [| v l IH]; cbn [sort_values].
  - constructor.
  - apply insert_sorted_Sorted. exact IH.
Qed.

(** X8. Without [group_order], the entries of a report come in ascending
    order of their group (integers by value, then strings by code point),
    not in the order the groups are met: their groups are the sorted
    distinct groups of [sensitive], each once. *)
Theorem entries_are_sorted_by_group
    (y_true sensitive : list value) (y_pred : option (list value))
    (y_score : option (list float)) (threshold : option float)
    (positive_label : value) (dropna_groups : bool) (r : BiasReport) :
  from_arrays y_true y_pred sensitive y_score threshold positive_label
    None dropna_groups = Ok r ->
  map group (by_group r) =
    sort_values (nodup value_eq_dec (filter notna sensitive)) /\
  Sorted (fun x y => value_leb x y = true) (map group (by_group r)) /\
  NoDup (map group (by_group r)).
Proof.
  intros H. apply from_arrays_inv in H.
  destruct H as [p [_ [H1 [H2 [Hv ->]]]]].
  cbn [report_of_samples by_group]. unfold table_of.
  rewrite group_table_groups.
  set (rows := samples dropna_groups y_true p sensitive).
  assert (Hall : filter (has_rows None rows)
                   (categories_of None (map s_group rows))
                 = categories_of None (map s_group rows)).
  { rewrite <- (in_order_None (categories_of None (map s_group rows))) at 2.
    apply filter_ext_in. intros g Hg. cbn [in_order].
    apply has_rows_true. apply categories_In in Hg.
    destruct Hg as [Hin Hn]. repeat split; assumption. }
  rewrite Hall.
  assert (Hcats : categories_of None (map s_group rows)
                  = sort_values (nodup value_eq_dec (filter notna sensitive))).
  { cbn [categories_of]. unfold rows.
    rewrite (samples_groups _ _ _ _ H1 H2). unfold kept_groups.
    destruct dropna_groups; [| reflexivity].
    rewrite (filter_implied notna notna sensitive (fun _ E => E)).
    reflexivity. }
  split; [exact Hcats | split].
  - rewrite Hcats. apply sort_values_Sorted.
  - apply categories_NoDup. exact Hv.
Qed.

Lemma entries_are_sorted_by_group_witness :
  exists r,
    from_arrays [VInt 1; VInt 0; VInt 1] (Some [VInt 1; VInt 1; VInt 0])
      [VStr "B"; VStr "A"; VStr "B"] None None (VInt 1) None false = Ok r /\
    map group (by_group r) = [VStr "A"; VStr "B"].
Proof.
  destruct (from_arrays [VInt 1; VInt 0; VInt 1]
              (Some [VInt 1; VInt 1; VInt 0])
              [VStr "B"; VStr "A"; VStr "B"] None None (VInt 1) None false)
    as [r | e] eqn:E; [| vm_compute in E; discriminate E].
  exists r. split; [reflexivity |].
  exact (proj1 (entries_are_sorted_by_group _ _ _ _ _ _ _ _ E)).
Defined.

(** ** The counts of the entries *)

Lemma members_count (group_order : option (list value)) (grp : value)
    (rows : list sample) :
  notna grp = true -> in_order group_order grp = true ->
  length (members group_order grp rows)
  = count_occ value_eq_dec (map s_group rows) grp.
Proof.
  intros Hn Ho. unfold members.
  induction rows as [| r rows IH]; cbn [filter map count_occ].
  - reflexivity.
  - destruct (value_eq_dec (s_group r) grp) as [E | E].
    + replace (value_eqb (cell_of group_order (s_group r)) grp) with true.
      * cbn [length]. rewrite IH. reflexivity.
      * symmetry. apply value_eqb_true. split; [| exact Hn]. rewrite E.
        destruct group_order as [order |]; cbn [cell_of in_order] in *.
        -- rewrite Ho. reflexivity.
        -- reflexivity.
    + replace (value_eqb (cell_of group_order (s_group r)) grp) with false.
      * exact IH.
      * symmetry. apply not_true_is_false. intros H.
        apply value_eqb_true in H. destruct H as [Hc _].
        destruct group_order as [order |]; cbn [cell_of] in Hc.
        -- destruct (mem (s_group r) order); [contradiction |].
           subst grp. discriminate Hn.
        -- contradiction.
Qed.

Lemma count_occ_notna (l : list value) (g : value) :
  notna g = true ->
  count_occ value_eq_dec (filter notna l) g = count_occ value_eq_dec l g.
Proof.
  intros Hn. induction l as [| v l IH]; cbn [filter count_occ].
  - reflexivity.
  - destruct (notna v) eqn:E; cbn [count_occ].
    + rewrite IH. reflexivity.
    + destruct (value_eq_dec v g) as [-> | _]; [congruence | exact IH].
Qed.

Lemma one_of_cons (g : value) (gs l : list value) :
  ~ In g gs ->
  length (filter (one_of (g :: gs)) l)
  = (count_occ value_eq_dec l g + length (filter (one_of gs) l))%nat.
Proof.
  intros Hg. unfold one_of.
  induction l as [| x l IH]; cbn [filter count_occ].
  - reflexivity.
  - destruct (value_eq_dec x g) as [-> | Hx].
    + destruct (in_dec value_eq_dec g (g :: gs)) as [_ | N];
        [| exfalso; apply N; left; reflexivity].
      destruct (in_dec value_eq_dec g gs) as [I | _]; [contradiction |].
      cbn [length]. rewrite IH. lia.
    + destruct (in_dec value_eq_dec x (g :: gs)) as [[E | I] | N].
      * congruence.
      * destruct (in_dec value_eq_dec x gs) as [_ | N']; [| contradiction].
        cbn [length]. rewrite IH. lia.
      * destruct (in_dec value_eq_dec x gs) as [I' | _].
        -- exfalso. apply N. right. exact I'.
        -- exact IH.
Qed.

Lemma count_occ_sum (gs l : list value) :
  NoDup gs ->
  list_sum (map (count_occ value_eq_dec l) gs) = length (filter (one_of gs) l).
Proof.
  unfold list_sum.
  induction 1 as [| g gs Hg Hnd IH]; cbn [map fold_right].
  - induction l as [| x l IHl]; [reflexivity | exact IHl].
  - rewrite IH, (one_of_cons g gs l Hg). reflexivity.
Qed.

Lemma table_counts (group_order : option (list value))
    (positive_label : value) (rows : list sample) (m : GroupMetrics) :
  In m (table_of group_order positive_label rows) ->
  count m = Z.of_nat (count_occ value_eq_dec (map s_group rows) (group m)).
Proof.
  intros Hm.
  assert (Hg : In (group m)
                 (map group (table_of group_order positive_label rows)))
    by (apply in_map; exact Hm).
  apply table_groups_In in Hg. destruct Hg as [_ [Hn Ho]].
  apply group_table_In in Hm. destruct Hm as [grp [_ [_ ->]]].
  rewrite entry_group in *. cbn [entry_of count].
  rewrite (members_count _ _ _ Hn Ho). reflexivity.
Qed.

Lemma zsum_counts (col : list value) (tbl : list GroupMetrics) :
  Forall (fun m => count m
                   = Z.of_nat (count_occ value_eq_dec col (group m))) tbl ->
  zsum (map count tbl)
  = Z.of_nat (list_sum (map (count_occ value_eq_dec col) (map group tbl))).
Proof.
  unfold list_sum.
  induction 1 as [| m tbl Hm _ IH]; cbn [map zsum fold_right].
  - reflexivity.
  - rewrite Hm, IH. lia.
Qed.

Lemma zsum_at_least_length (tbl : list GroupMetrics) :
  Forall (fun m => 0 < count m) tbl ->
  Z.of_nat (length tbl) <= zsum (map count tbl).
Proof.
  induction 1 as [| m tbl Hm _ IH]; cbn [map zsum length]; lia.
Qed.

(** X9. In the report of a call that returns, the count of an entry is the
    number of rows of [sensitive] that hold its group, and the counts add
    up to the number of rows whose group is present and, when a
    [group_order] is given, listed in it: at least one row per entry, and
    at most [n_samples] rows in all. *)
Theorem counts_add_up
    (y_true sensitive : list value) (y_pred : option (list value))
    (y_score : option (list float)) (threshold : option float)
    (positive_label : value) (group_order : option (list value))
    (dropna_groups : bool) (r : BiasReport) :
  from_arrays y_true y_pred sensitive y_score threshold positive_label
    group_order dropna_groups = Ok r ->
  Forall (fun m => count m
                   = Z.of_nat (count_occ value_eq_dec sensitive (group m)))
    (by_group r) /\
  zsum (map count (by_group r))
  = Z.of_nat (length (filter (fun v => notna v && in_order group_order v)
                        sensitive)) /\
  n_groups (metadata r) <= zsum (map count (by_group r))
                        <= n_samples (metadata r).
Proof.
  intros H. apply from_arrays_inv in H.
  destruct H as [p [_ [H1 [H2 [Hv ->]]]]].
  cbn [report_of_samples by_group metadata n_groups n_samples].
  set (rows := samples dropna_groups y_true p sensitive).
  set (tbl := table_of group_order positive_label rows).
  pose proof (samples_groups dropna_groups _ _ _ H1 H2) as Hcol.
  fold rows in Hcol.
  assert (Hcount : Forall (fun m => count m
              = Z.of_nat (count_occ value_eq_dec (map s_group rows) (group m)))
            tbl).
  { apply Forall_forall. intros m Hm.
    apply (table_counts group_order positive_label). exact Hm. }
  assert (Hnd : NoDup (map group tbl)).
  { unfold tbl, table_of. rewrite group_table_groups.
    apply NoDup_filter, categories_NoDup. exact Hv. }
  assert (Hsum : zsum (map count tbl)
                 = Z.of_nat (length (filter (one_of (map group tbl))
                                       (map s_group rows)))).
  { rewrite (zsum_counts _ _ Hcount), (count_occ_sum _ _ Hnd). reflexivity. }
  assert (Hpos : Forall (fun m => 0 < count m) tbl).
  { apply Forall_forall. intros m Hm. apply group_table_In in Hm.
    destruct Hm as [grp [_ [Hne ->]]]. apply entry_count. exact Hne. }
  split; [| split; [| split]].
  - apply Forall_forall. intros m Hm. rewrite Forall_forall in Hcount.
    rewrite (Hcount m Hm), Hcol. f_equal.
    assert (Hg : In (group m) (map group tbl)) by (apply in_map; exact Hm).
    apply table_groups_In in Hg. destruct Hg as [_ [Hn _]].
    unfold kept_groups. destruct dropna_groups; [| reflexivity].
    apply count_occ_notna. exact Hn.
  - rewrite Hsum. f_equal. f_equal.
    rewrite (filter_ext_in (one_of (map group tbl))
               (fun v => notna v && in_order group_order v)).
    + rewrite Hcol. unfold kept_groups.
      destruct dropna_groups; [| reflexivity].
      apply filter_implied. intros x Hx.
      apply andb_true_iff in Hx. apply Hx.
    + intros x Hx. apply eq_true_iff_eq. unfold one_of.
      rewrite andb_true_iff.
      pose proof (table_groups_In group_order positive_label rows x) as Hin.
      fold tbl in Hin.
      destruct (in_dec value_eq_dec x (map group tbl)) as [I | N].
      * split; [intros _; apply Hin in I; tauto | reflexivity].
      * split; [discriminate |]. intros [Hn Ho]. exfalso. apply N.
        apply Hin. repeat split; assumption.
  - apply zsum_at_least_length. exact Hpos.
  - rewrite Hsum. apply inj_le.
    rewrite <- (length_map s_group rows). apply filter_length_le.
Qed.

Lemma counts_add_up_witness :
  exists r,
    docstring_report = Ok r /\
    zsum (map count (by_group r)) = 8 /\
    n_groups (metadata r) <= zsum (map count (by_group r))
                          <= n_samples (metadata r).
Proof.
  destruct docstring_report as [r | e] eqn:E;
    [| vm_compute in E; discriminate E].
  exists r. split; [reflexivity |].
  destruct (counts_add_up ex_true ex_sensitive (Some ex_pred) None None
              (VInt 1) None false r E) as [_ [Hs Hle]].
  split; [exact Hs | exact Hle].
Defined.

(** ** A positive label that matches nothing *)

Lemma zip3_pred_In (a b c : list value) (r : sample) :
  In r (zip3 a b c) -> In (s_pred r) b.
Proof.
  revert b c. induction a as [| x a IH]; intros [| y b] [| z c];
    cbn [zip3 In]; try contradiction.
  intros [<- | H]; [left; reflexivity | right; apply (IH b c); exact H].
Qed.

Lemma zip3_true_In (a b c : list value) (r : sample) :
  In r (zip3 a b c) -> In (s_true r) a.
Proof.
  revert b c. induction a as [| x a IH]; intros [| y b] [| z c];
    cbn [zip3 In]; try contradiction.
  intros [<- | H]; [left; reflexivity | right; apply (IH b c); exact H].
Qed.

Lemma members_in_zip3 (group_order : option (list value))
    (dropna_groups : bool) (y_true y_pred sensitive : list value)
    (grp : value) (r : sample) :
  In r (members group_order grp
          (samples dropna_groups y_true y_pred sensitive)) ->
  In r (zip3 y_true y_pred sensitive).
Proof.
  unfold members, samples. rewrite filter_In. intros [H _].
  destruct dropna_groups; [apply filter_In in H; apply H | exact H].
Qed.

Lemma span_of_all_NaN (metric : GroupMetrics -> float)
    (by_group : list GroupMetrics) :
  Forall (fun m => metric m = NaN) by_group -> span_of metric by_group = NaN.
Proof.
  intros Hall.
  destruct (span_of_spec metric by_group) as [[Hs _] | [hi [_ [Hhi _]]]].
  - exact Hs.
  - apply in_map_iff in Hhi. destruct Hhi as [m [Hm Hin]].
    rewrite Forall_forall in Hall. rewrite (Hall m Hin) in Hm.
    discriminate Hm.
Qed.

(** X10. A [positive_label] that equals no cell of [y_pred] (a label of
    another type, or a missing one) raises nothing: in the report, every
    entry has the selection rate 0 and no precision, and
    [disparate_impact_ratio] and [predictive_parity_difference] are
    not-a-number. *)
Theorem unmatched_positive_label
    (y_true y_pred sensitive : list value)
    (y_score : option (list float)) (threshold : option float)
    (positive_label : value) (group_order : option (list value))
    (dropna_groups : bool) (r : BiasReport) :
  from_arrays y_true (Some y_pred) sensitive y_score threshold positive_label
    group_order dropna_groups = Ok r ->
  (forall v, In v y_pred -> value_eqb v positive_label = false) ->
  Forall (fun m => feq (positive_rate m) (Fin 0) /\ ppv m = NaN)
    (by_group r) /\
  disparate_impact_ratio (summary r) = NaN /\
  predictive_parity_difference (summary r) = NaN.
Proof.
  intros H Hno. apply from_arrays_inv in H.
  destruct H as [p [Hp [_ [_ [_ ->]]]]]. injection Hp as <-.
  cbn [report_of_samples by_group summary summary_of disparate_impact_ratio
         predictive_parity_difference].
  set (rows := samples dropna_groups y_true y_pred sensitive).
  assert (Hall : Forall (fun m => feq (positive_rate m) (Fin 0) /\ ppv m = NaN)
                   (table_of group_order positive_label rows)).
  { apply Forall_forall. intros m Hm. apply group_table_In in Hm.
    destruct Hm as [grp [_ [Hne ->]]].
    set (ms := members group_order grp rows) in *.
    assert (Hz : count_if (pred_pos positive_label) ms = 0).
    { apply count_if_zero. intros x Hx. apply Hno.
      apply (zip3_pred_In y_true y_pred sensitive).
      apply (members_in_zip3 group_order dropna_groups _ _ _ grp). exact Hx. }
    assert (Hn : Z.of_nat (length ms) <> 0)
      by (destruct ms; [contradiction | cbn [length]; lia]).
    cbn [entry_of positive_rate ppv]. split.
    - apply (ratio_zero _ _ Hn). exact Hz.
    - apply ratio_NaN.
      rewrite (count_if_split_r (pred_pos positive_label)
                 (truth_pos positive_label) ms). exact Hz. }
  split; [exact Hall | split].
  - apply (table_di_ratio group_order positive_label rows).
    apply Forall_forall. intros m Hm. rewrite Forall_forall in Hall.
    apply (Hall m Hm).
  - apply span_of_all_NaN. apply Forall_forall. intros m Hm.
    rewrite Forall_forall in Hall. apply (Hall m Hm).
Qed.

Lemma unmatched_positive_label_witness :
  exists r,
    from_arrays [VInt 1; VInt 0] (Some [VInt 1; VInt 0])
      [VStr "A"; VStr "B"] None None (VStr "1") None false = Ok r /\
    Forall (fun m => feq (positive_rate m) (Fin 0) /\ ppv m = NaN)
      (by_group r) /\
    disparate_impact_ratio (summary r) = NaN.
Proof.
  destruct (from_arrays [VInt 1; VInt 0] (Some [VInt 1; VInt 0])
              [VStr "A"; VStr "B"] None None (VStr "1") None false)
    as [r | e] eqn:E; [| vm_compute in E; discriminate E].
  exists r. split; [reflexivity |].
  destruct (unmatched_positive_label _ _ _ _ _ _ _ _ _ E) as [H1 [H2 _]].
  - intros v [<- | [<- | []]]; reflexivity.
  - split; assumption.
Defined.

(** ** Predictions that equal the truth *)

Lemma ratio_all (a : Z) : ratio a (a + 0) = NaN \/ feq (ratio a (a + 0)) (Fin 1).
Proof.
  rewrite Z.add_0_r. unfold ratio. destruct (a =? 0) eqn:E.
  - left. reflexivity.
  - right. apply Z.eqb_neq in E. cbn [feq]. field.
    intros Hq. change 0%Q with (inject_Z 0) in Hq.
    exact (E (proj1 (inject_Z_injective _ _) Hq)).
Qed.

Lemma ratio_none (d : Z) : ratio 0 d = NaN \/ feq (ratio 0 d) (Fin 0).
Proof.
  unfold ratio. destruct (d =? 0).
  - left. reflexivity.
  - right. cbn [feq]. unfold Qdiv. apply Qmult_0_l.
Qed.

Lemma zip3_diag (a c : list value) (r : sample) :
  In r (zip3 a a c) -> s_pred r = s_true r.
Proof.
  revert c. induction a as [| x a IH]; intros [| z c]; cbn [zip3 In];
    try contradiction.
  intros [<- | H]; [reflexivity | apply (IH c); exact H].
Qed.

(** X11. When the predictions are the truth itself, no entry of the report
    has an error: its false-positive and false-negative rates are 0 or
    not-a-number, and its true-positive rate, its specificity and its
    precision are 1 or not-a-number. *)
Theorem perfect_predictions
    (y_true sensitive : list value)
    (y_score : option (list float)) (threshold : option float)
    (positive_label : value) (group_order : option (list value))
    (dropna_groups : bool) (r : BiasReport) :
  from_arrays y_true (Some y_true) sensitive y_score threshold positive_label
    group_order dropna_groups = Ok r ->
  Forall (fun m =>
            (fpr m = NaN \/ feq (fpr m) (Fin 0)) /\
            (fnr m = NaN \/ feq (fnr m) (Fin 0)) /\
            (tpr m = NaN \/ feq (tpr m) (Fin 1)) /\
            (tnr m = NaN \/ feq (tnr m) (Fin 1)) /\
            (ppv m = NaN \/ feq (ppv m) (Fin 1)))
    (by_group r).
Proof.
  intros H. apply from_arrays_inv in H.
  destruct H as [p [Hp [_ [_ [_ ->]]]]]. injection Hp as <-.
  cbn [report_of_samples by_group].
  apply Forall_forall. intros m Hm. apply group_table_In in Hm.
  destruct Hm as [grp [_ [_ ->]]].
  set (ms := members group_order grp
               (samples dropna_groups y_true y_true sensitive)).
  set (T := truth_pos positive_label). set (P := pred_pos positive_label).
  assert (Hsame : forall x, In x ms -> P x = T x).
  { intros x Hx. unfold P, T, pred_pos, truth_pos.
    rewrite (zip3_diag y_true sensitive x); [reflexivity |].
    apply (members_in_zip3 group_order dropna_groups _ _ _ grp). exact Hx. }
  assert (Hfp : count_if (fun x => P x && negb (T x)) ms = 0).
  { apply count_if_zero. intros x Hx. rewrite (Hsame x Hx).
    destruct (T x); reflexivity. }
  assert (Hfn : count_if (fun x => negb (P x) && T x) ms = 0).
  { apply count_if_zero. intros x Hx. rewrite (Hsame x Hx).
    destruct (T x); reflexivity. }
  cbn [entry_of fpr fnr tpr tnr ppv]. fold T P. rewrite Hfp, Hfn.
  repeat split; first [apply ratio_none | apply ratio_all].
Qed.

Lemma perfect_predictions_witness :
  exists r,
    from_arrays ex_true (Some ex_true) ex_sensitive None None (VInt 1) None
      false = Ok r /\
    Forall (fun m => (fpr m = NaN \/ feq (fpr m) (Fin 0)) /\
                     (fnr m = NaN \/ feq (fnr m) (Fin 0)))
      (by_group r).
Proof.
  destruct (from_arrays ex_true (Some ex_true) ex_sensitive None None
              (VInt 1) None false) as [r | e] eqn:E;
    [| vm_compute in E; discriminate E].
  exists r. split; [reflexivity |].
  pose proof (perfect_predictions _ _ _ _ _ _ _ _ E) as H.
  apply Forall_forall. intros m Hm. rewrite Forall_forall in H.
  destruct (H m Hm) as [H1 [H2 _]]. split; assumption.
Defined.

(** ** Display *)

Lemma filter_none {A : Type} (f : A -> bool) (l : list A) :
  (forall x, In x l -> f x = false) -> filter f l = [].
Proof.
  intros H. induction l as [| x l IH]; cbn [filter].
  - reflexivity.
  - rewrite (H x (or_introl eq_refl)). apply IH. intros y Hy.
    apply H. right. exact Hy.
Qed.

Lemma frame_has_the_keys (m : GroupMetrics)
    (rows : list (list (string * pyobj))) (c : string) :
  In c (map fst (GroupMetrics_as_dict m)) ->
  existsb (String.eqb c) (frame_columns (GroupMetrics_as_dict m :: rows))
  = true.
Proof.
  intros Hc. apply existsb_exists. exists c. split.
  - unfold frame_columns. apply nodup_In. cbn [flat_map].
    apply in_or_app. left. exact Hc.
  - apply String.eqb_refl.
Qed.

(** X12. [to_pretty] never raises, whatever the report: the columns it
    selects are keys of [GroupMetrics.as_dict].  Its text is
    ["<no groups>"] exactly when the report has no entry; the summary and
    the metadata are then not shown. *)
Theorem to_pretty_never_raises
    (to_string : list string -> list (list pyobj) -> string)
    (format_4f : Q -> string) (str_metadata : Metadata -> string)
    (self : BiasReport) :
  returns (to_pretty to_string format_4f str_metadata self) /\
  (to_pretty to_string format_4f str_metadata self = Ok "<no groups>"%string
   <-> by_group self = []).
Proof.
  unfold to_pretty. destruct (by_group self) as [| m ms]; cbn [map].
  - split; [eexists; reflexivity | split; reflexivity].
  - unfold frame_getitem. set (missing := filter _ _).
    assert (missing = []) as ->.
    { apply filter_none. intros c Hc. apply negb_false_iff.
      apply frame_has_the_keys. exact Hc. }
    cbn [bind]. split; [eexists; reflexivity |].
    split; [intros H; cbn in H; discriminate H | discriminate].
Qed.

(** X13. The report of a call that returns has no entry exactly when no
    row of [sensitive] holds a group that is present and, when a
    [group_order] is given, listed in it. *)
Theorem reports_without_groups
    (y_true sensitive : list value) (y_pred : option (list value))
    (y_score : option (list float)) (threshold : option float)
    (positive_label : value) (group_order : option (list value))
    (dropna_groups : bool) (r : BiasReport) :
  from_arrays y_true y_pred sensitive y_score threshold positive_label
    group_order dropna_groups = Ok r ->
  (by_group r = [] <->
   forall v, In v sensitive -> notna v = true ->
             in_order group_order v = false).
Proof.
  intros H. apply from_arrays_inv in H.
  destruct H as [p [_ [H1 [H2 [_ ->]]]]].
  cbn [report_of_samples by_group].
  pose proof (fun v => table_groups_In group_order positive_label
                (samples dropna_groups y_true p sensitive) v) as Hin.
  rewrite (samples_groups _ _ _ _ H1 H2) in Hin.
  split.
  - intros E v Hv Hn. destruct (in_order group_order v) eqn:Ho;
      [| reflexivity].
    exfalso. rewrite E in Hin. apply (proj2 (Hin v)).
    split; [| split; assumption].
    apply (kept_groups_In dropna_groups sensitive v). split; assumption.
  - intros Hno.
    destruct (table_of group_order positive_label
                (samples dropna_groups y_true p sensitive)) as [| m ms];
      [reflexivity |].
    exfalso. destruct (proj1 (Hin (group m)) (or_introl eq_refl))
      as [Hk [Hn Ho]].
    rewrite (Hno (group m)) in Ho; [discriminate Ho | | exact Hn].
    apply (kept_groups_In dropna_groups sensitive (group m)).
    split; assumption.
Qed.

Lemma reports_without_groups_witness :
  exists r,
    from_arrays [VInt 1; VInt 0] (Some [VInt 1; VInt 0]) [VStr "A"; VNA]
      None None (VInt 1) (Some [VStr "B"]) false = Ok r /\
    by_group r = [].
Proof.
  destruct (from_arrays [VInt 1; VInt 0] (Some [VInt 1; VInt 0])
              [VStr "A"; VNA] None None (VInt 1) (Some [VStr "B"]) false)
    as [r | e] eqn:E; [| vm_compute in E; discriminate E].
  exists r. split; [reflexivity |].
  apply (proj2 (reports_without_groups _ _ _ _ _ _ _ _ _ E)).
  intros v [<- | [<- | []]] Hn; [reflexivity | discriminate Hn].
Defined.

(** ** The order of the rows *)

Lemma ascii_lt_trans (x y z : ascii) :
  Ascii.compare x y = Lt -> Ascii.compare y z = Lt -> Ascii.compare x z = Lt.
Proof.
  unfold Ascii.compare. rewrite !N.compare_lt_iff. lia.
Qed.

Lemma string_le_trans (a b c : string) :
  String.compare a b <> Gt -> String.compare b c <> Gt ->
  String.compare a c <> Gt.
Proof.
  revert b c. induction a as [| x a IH]; intros [| y b] [| z c];
    cbn [String.compare]; try congruence.
  destruct (Ascii.compare x y) eqn:Exy; [| | congruence].
  - apply Ascii.compare_eq_iff in Exy. subst y.
    destruct (Ascii.compare x z); [apply IH | congruence | congruence].
  - destruct (Ascii.compare y z) eqn:Eyz; [| | congruence].
    + apply Ascii.compare_eq_iff in Eyz. subst z. rewrite Exy. congruence.
    + rewrite (ascii_lt_trans x y z Exy Eyz). congruence.
Qed.

Lemma string_leb_trans (a b c : string) :
  String.leb a b = true -> String.leb b c = true -> String.leb a c = true.
Proof.
  unfold String.leb. intros H1 H2.
  assert (String.compare a c <> Gt) as H.
  { apply (string_le_trans a b c).
    - destruct (String.compare a b); congruence.
    - destruct (String.compare b c); congruence. }
  destruct (String.compare a c); congruence.
Qed.

Lemma value_leb_trans (a b c : value) :
  value_leb a b = true -> value_leb b c = true -> value_leb a c = true.
Proof.
  destruct a as [x | x |], b as [y | y |], c as [z | z |];
    cbn [value_leb]; try reflexivity; try discriminate.
  - rewrite !Z.leb_le. lia.
  - apply string_leb_trans.
Qed.

Lemma value_leb_antisym (a b : value) :
  value_leb a b = true -> value_leb b a = true -> a = b.
Proof.
  destruct a as [x | x |], b as [y | y |];
    cbn [value_leb]; try reflexivity; try discriminate.
  - rewrite !Z.leb_le. intros. f_equal. lia.
  - intros H1 H2. f_equal. apply String.leb_antisym; assumption.
Qed.

Lemma sort_values_StronglySorted (l : list value) :
  StronglySorted (fun x y => value_leb x y = true) (sort_values l).
Proof.
  apply Sorted_StronglySorted; [| apply sort_values_Sorted].
  intros x y z. apply value_leb_trans.
Qed.

(** Two sorted lists with the same elements are one list. *)
Lemma sorted_unique (l l' : list value) :
  StronglySorted (fun x y => value_leb x y = true) l ->
  StronglySorted (fun x y => value_leb x y = true) l' ->
  Permutation l l' -> l = l'.
Proof.
  intros Hl. revert l'. induction Hl as [| a l Hs IH Ha]; intros l' Hl' Hp.
  - symmetry. apply Permutation_nil. exact Hp.
  - destruct Hl' as [| b l' Hs' Hb].
    + apply Permutation_sym, Permutation_nil in Hp. discriminate Hp.
    + assert (a = b) as ->.
      { assert (In a (b :: l')) as Ia
          by (apply (Permutation_in _ Hp); left; reflexivity).
        assert (In b (a :: l)) as Ib
          by (apply (Permutation_in _ (Permutation_sym Hp)); left;
              reflexivity).
        destruct Ia as [E | Ia]; [symmetry; exact E |].
        destruct Ib as [E | Ib]; [exact E |].
        rewrite Forall_forall in Ha, Hb.
        apply value_leb_antisym; [apply Ha; exact Ib | apply Hb; exact Ia]. }
      f_equal. apply IH; [exact Hs' |].
      apply (Permutation_cons_inv Hp).
Qed.

Lemma filter_perm {A : Type} (f : A -> bool) (l l' : list A) :
  Permutation l l' -> Permutation (filter f l) (filter f l').
Proof.
  induction 1 as [| x l l' _ IH | x y l | l l' l'' _ IH1 _ IH2];
    cbn [filter].
  - constructor.
  - destruct (f x); [constructor |]; exact IH.
  - destruct (f x), (f y); try apply Permutation_refl. apply perm_swap.
  - apply (perm_trans IH1 IH2).
Qed.

Lemma categories_perm (group_order : option (list value))
    (col col' : list value) :
  Permutation col col' ->
  categories_of group_order col = categories_of group_order col'.
Proof.
  intros Hp. destruct group_order as [order |]; cbn [categories_of];
    [reflexivity |].
  apply sorted_unique; try apply sort_values_StronglySorted.
  apply perm_trans with (nodup value_eq_dec (filter notna col));
    [apply Permutation_sym, sort_values_perm |].
  apply perm_trans with (nodup value_eq_dec (filter notna col'));
    [| apply sort_values_perm].
  apply NoDup_Permutation; try apply NoDup_nodup.
  intros x. rewrite !nodup_In. split; apply Permutation_in.
  - apply filter_perm. exact Hp.
  - apply filter_perm, Permutation_sym. exact Hp.
Qed.

Lemma count_if_perm (f : sample -> bool) (ms ms' : list sample) :
  Permutation ms ms' -> count_if f ms = count_if f ms'.
Proof.
  intros Hp. unfold count_if.
  rewrite (Permutation_length (filter_perm f _ _ Hp)). reflexivity.
Qed.

Lemma entry_of_perm (positive_label grp : value) (ms ms' : list sample) :
  Permutation ms ms' ->
  entry_of positive_label grp ms = entry_of positive_label grp ms'.
Proof.
  intros Hp. unfold entry_of.
  rewrite (Permutation_length Hp).
  rewrite !(count_if_perm _ ms ms' Hp). reflexivity.
Qed.

Lemma group_table_perm (group_order : option (list value))
    (positive_label : value) (rows rows' : list sample)
    (groups : list value) :
  Permutation rows rows' ->
  group_table group_order positive_label rows groups
  = group_table group_order positive_label rows' groups.
Proof.
  intros Hp. induction groups as [| grp rest IH]; cbn [group_table].
  - reflexivity.
  - assert (Hm : Permutation (members group_order grp rows)
                   (members group_order grp rows'))
      by (apply filter_perm; exact Hp).
    rewrite IH.
    destruct (members group_order grp rows) as [| r0 ms] eqn:E.
    + apply Permutation_nil in Hm. rewrite Hm. reflexivity.
    + destruct (members group_order grp rows') as [| r0' ms'] eqn:E'.
      * apply Permutation_sym, Permutation_nil in Hm. discriminate Hm.
      * rewrite (entry_of_perm _ _ _ _ Hm). reflexivity.
Qed.

(** X14. The report does not depend on the order of the rows: a call
    whose rows are those of a call that returns, in another order, returns
    the same report. *)
Theorem report_ignores_row_order
    (y_true y_pred sensitive y_true' y_pred' sensitive' : list value)
    (y_score : option (list float)) (threshold : option float)
    (positive_label : value) (group_order : option (list value))
    (dropna_groups : bool) (r : BiasReport) :
  from_arrays y_true (Some y_pred) sensitive y_score threshold positive_label
    group_order dropna_groups = Ok r ->
  length y_true' = length y_pred' ->
  length y_true' = length sensitive' ->
  Permutation (zip3 y_true y_pred sensitive)
    (zip3 y_true' y_pred' sensitive') ->
  from_arrays y_true' (Some y_pred') sensitive' y_score threshold
    positive_label group_order dropna_groups = Ok r.
Proof.
  intros H H1' H2' Hp. apply from_arrays_inv in H.
  destruct H as [p [Hp' [_ [_ [Hv ->]]]]]. injection Hp' as <-.
  rewrite (from_arrays_returns _ _ _ _ _ _ _ _ H1' H2' Hv). f_equal.
  assert (Hrows : Permutation
                    (samples dropna_groups y_true y_pred sensitive)
                    (samples dropna_groups y_true' y_pred' sensitive')).
  { unfold samples. destruct dropna_groups.
    - apply filter_perm. exact Hp.
    - exact Hp. }
  unfold report_of_samples.
  assert (Htbl : table_of group_order positive_label
                   (samples dropna_groups y_true' y_pred' sensitive')
                 = table_of group_order positive_label
                     (samples dropna_groups y_true y_pred sensitive)).
  { unfold table_of.
    rewrite (categories_perm group_order _ _
               (Permutation_map s_group Hrows)).
    symmetry. apply group_table_perm. exact Hrows. }
  rewrite Htbl, (Permutation_length Hrows). reflexivity.
Qed.

Lemma report_ignores_row_order_witness :
  exists r,
    from_arrays [VInt 1; VInt 0; VInt 1] (Some [VInt 1; VInt 1; VInt 0])
      [VStr "B"; VStr "A"; VStr "B"] None None (VInt 1) None false = Ok r /\
    from_arrays [VInt 0; VInt 1; VInt 1] (Some [VInt 1; VInt 1; VInt 0])
      [VStr "A"; VStr "B"; VStr "B"] None None (VInt 1) None false = Ok r.
Proof.
  destruct (from_arrays [VInt 1; VInt 0; VInt 1]
              (Some [VInt 1; VInt 1; VInt 0])
              [VStr "B"; VStr "A"; VStr "B"] None None (VInt 1) None false)
    as [r | e] eqn:E; [| vm_compute in E; discriminate E].
  exists r. split; [reflexivity |].
  apply (report_ignores_row_order _ _ _ _ _ _ _ _ _ _ _ _ E);
    [reflexivity | reflexivity |].
  cbn [zip3]. apply perm_swap.
Defined.

(** ** The other label of binary data *)

Lemma count_if_ext_in (f g : sample -> bool) (ms : list sample) :
  (forall r, In r ms -> f r = g r) -> count_if f ms = count_if g ms.
Proof.
  intros H. unfold count_if. rewrite (filter_ext_in f g ms H). reflexivity.
Qed.

Lemma other_label (a b v : value) :
  a <> b -> notna a = true -> notna b = true -> v = a \/ v = b ->
  value_eqb v b = negb (value_eqb v a).
Proof.
  intros Hab Ha Hb [-> | ->].
  - replace (value_eqb a a) with true
      by (symmetry; apply value_eqb_true; split; [reflexivity | exact Ha]).
    apply not_true_is_false. intros H. apply value_eqb_true in H.
    destruct H as [H _]. contradiction.
  - replace (value_eqb b b) with true
      by (symmetry; apply value_eqb_true; split; [reflexivity | exact Hb]).
    symmetry. apply negb_true_iff, not_true_is_false. intros H.
    apply value_eqb_true in H. destruct H as [H _]. congruence.
Qed.

Lemma entry_of_mirrored (a b grp : value) (ms : list sample) :
  (forall r, In r ms -> truth_pos b r = negb (truth_pos a r)) ->
  (forall r, In r ms -> pred_pos b r = negb (pred_pos a r)) ->
  mirrored (entry_of a grp ms) (entry_of b grp ms).
Proof.
  intros Ht Hp. unfold mirrored, entry_of. cbn [group count tpr tnr fpr fnr].
  assert (E1 : count_if (fun r => pred_pos b r && truth_pos b r) ms
               = count_if (fun r => negb (pred_pos a r)
                                    && negb (truth_pos a r)) ms)
    by (apply count_if_ext_in; intros r Hr;
        rewrite (Ht r Hr), (Hp r Hr); reflexivity).
  assert (E2 : count_if (fun r => pred_pos b r && negb (truth_pos b r)) ms
               = count_if (fun r => negb (pred_pos a r) && truth_pos a r) ms)
    by (apply count_if_ext_in; intros r Hr;
        rewrite (Ht r Hr), (Hp r Hr), negb_involutive; reflexivity).
  assert (E3 : count_if (fun r => negb (pred_pos b r)
                                  && negb (truth_pos b r)) ms
               = count_if (fun r => pred_pos a r && truth_pos a r) ms)
    by (apply count_if_ext_in; intros r Hr;
        rewrite (Ht r Hr), (Hp r Hr), !negb_involutive; reflexivity).
  assert (E4 : count_if (fun r => negb (pred_pos b r) && truth_pos b r) ms
               = count_if (fun r => pred_pos a r && negb (truth_pos a r)) ms)
    by (apply count_if_ext_in; intros r Hr;
        rewrite (Ht r Hr), (Hp r Hr), negb_involutive; reflexivity).
  rewrite E1, E2, E3, E4. repeat split.
Qed.

Lemma group_table_mirrored (group_order : option (list value))
    (a b : value) (rows : list sample) (groups : list value) :
  (forall r, In r rows -> truth_pos b r = negb (truth_pos a r)) ->
  (forall r, In r rows -> pred_pos b r = negb (pred_pos a r)) ->
  Forall2 mirrored (group_table group_order a rows groups)
    (group_table group_order b rows groups).
Proof.
  intros Ht Hp. induction groups as [| grp rest IH]; cbn [group_table].
  - constructor.
  - destruct (members group_order grp rows) as [| r0 ms] eqn:E.
    + exact IH.
    + constructor; [| exact IH]. apply entry_of_mirrored.
      * intros r Hr. apply Ht. rewrite <- E in Hr.
        unfold members in Hr. apply filter_In in Hr. apply Hr.
      * intros r Hr. apply Hp. rewrite <- E in Hr.
        unfold members in Hr. apply filter_In in Hr. apply Hr.
Qed.

(** X15. On binary data, taking the other label as [positive_label] keeps
    the groups and their counts and trades the rates: the true-positive
    rate of an entry becomes its specificity and its false-positive rate
    becomes its false-negative rate, and back. *)
Theorem other_positive_label
    (y_true y_pred sensitive : list value)
    (y_score : option (list float)) (threshold : option float)
    (a b : value) (group_order : option (list value))
    (dropna_groups : bool) (r : BiasReport) :
  from_arrays y_true (Some y_pred) sensitive y_score threshold a
    group_order dropna_groups = Ok r ->
  a <> b -> notna a = true -> notna b = true ->
  (forall v, In v y_true \/ In v y_pred -> v = a \/ v = b) ->
  exists r',
    from_arrays y_true (Some y_pred) sensitive y_score threshold b
      group_order dropna_groups = Ok r' /\
    Forall2 mirrored (by_group r) (by_group r').
Proof.
  intros H Hab Ha Hb Hbin. apply from_arrays_inv in H.
  destruct H as [p [Hp [H1 [H2 [Hv ->]]]]]. injection Hp as <-.
  eexists. split; [apply (from_arrays_returns _ _ _ _ _ _ _ _ H1 H2 Hv) |].
  cbn [report_of_samples by_group]. unfold table_of.
  assert (Hz : forall x, In x (samples dropna_groups y_true y_pred sensitive)
                         -> In x (zip3 y_true y_pred sensitive)).
  { intros x Hx. unfold samples in Hx.
    destruct dropna_groups; [apply filter_In in Hx; apply Hx | exact Hx]. }
  apply group_table_mirrored.
  - intros x Hx. unfold truth_pos. apply (other_label a b); try assumption.
    apply Hbin. left.
    apply (zip3_true_In y_true y_pred sensitive). apply Hz. exact Hx.
  - intros x Hx. unfold pred_pos. apply (other_label a b); try assumption.
    apply Hbin. right.
    apply (zip3_pred_In y_true y_pred sensitive). apply Hz. exact Hx.
Qed.

Lemma other_positive_label_witness :
  exists r r',
    docstring_report = Ok r /\
    from_arrays ex_true (Some ex_pred) ex_sensitive None None (VInt 0) None
      false = Ok r' /\
    Forall2 mirrored (by_group r) (by_group r').
Proof.
  destruct docstring_report as [r | e] eqn:E;
    [| vm_compute in E; discriminate E].
  destruct (other_positive_label ex_true ex_pred ex_sensitive None None
              (VInt 1) (VInt 0) None false r E) as [r' [E' Hm]].
  - discriminate.
  - reflexivity.
  - reflexivity.
  - intros v [Hv | Hv]; cbn in Hv;
      repeat (destruct Hv as [<- | Hv]; [auto |]); destruct Hv.
  - exists r, r'. split; [reflexivity | split; assumption].
Defined.

(** ** Parity *)

Lemma Qdiv_one (a b : Q) : ~ (b == 0)%Q -> ((a / b == 1)%Q <-> (a == b)%Q).
Proof.
  intros Hb. split; intros H.
  - rewrite <- (Qmult_div_r a b Hb), H. ring.
  - rewrite H. field. exact Hb.
Qed.

Lemma parity_of_numbers (by_group : list GroupMetrics) (qs : list Q) :
  map positive_rate by_group = map Fin qs ->
  (feq (span_of positive_rate by_group) (Fin 0) <->
   qs <> [] /\ forall x y, In x qs -> In y qs -> (x == y)%Q) /\
  (feq (di_ratio_of by_group) (Fin 1) <->
   (exists x, In x qs /\ ~ (x == 0)%Q) /\
   forall x y, In x qs -> In y qs -> (x == y)%Q).
Proof.
  intros Hq. unfold span_of, di_ratio_of. rewrite Hq, finite_vals_Fin.
  destruct qs as [| q qs].
  - cbn [feq]. split.
    + split; [intros [] | intros [H _]; apply H; reflexivity].
    + split; [intros [] | intros [[x [[] _]] _]].
  - set (hi := fold_left Qmax qs q). set (lo := fold_left Qmin qs q).
    assert (Hhi : In hi (q :: qs)) by apply fold_max_In.
    assert (Hlo : In lo (q :: qs)) by apply fold_min_In.
    assert (Hup : forall x, In x (q :: qs) -> (lo <= x /\ x <= hi)%Q).
    { intros x Hx. split;
        [apply fold_min_lower | apply fold_max_upper]; exact Hx. }
    assert (Hall : (hi == lo)%Q ->
                   forall x y, In x (q :: qs) -> In y (q :: qs) -> (x == y)%Q).
    { intros E x y Hx Hy. destruct (Hup x Hx), (Hup y Hy). lra. }
    split.
    + cbn [feq]. split.
      * intros E. split; [discriminate |]. apply Hall. lra.
      * intros [_ E]. pose proof (E hi lo Hhi Hlo). lra.
    + destruct (Qeq_bool hi 0) eqn:E0.
      * apply Qeq_bool_iff in E0. cbn [feq]. split; [intros [] |].
        intros [[x [Hx Hnz]] E]. apply Hnz.
        rewrite (E x hi Hx Hhi). exact E0.
      * apply Qeq_bool_neq in E0. cbn [feq]. rewrite (Qdiv_one lo hi E0).
        split.
        -- intros E. split.
           ++ exists hi. split; assumption.
           ++ apply Hall. symmetry. exact E.
        -- intros [_ E]. apply E; assumption.
Qed.

(** X16. In the report of a call that returns,
    [demographic_parity_difference] is 0 exactly when there is an entry and
    all entries have one selection rate, and [disparate_impact_ratio] is 1
    exactly when, moreover, that rate is not 0. *)
Theorem parity_means_equal_rates
    (y_true sensitive : list value) (y_pred : option (list value))
    (y_score : option (list float)) (threshold : option float)
    (positive_label : value) (group_order : option (list value))
    (dropna_groups : bool) (r : BiasReport) :
  from_arrays y_true y_pred sensitive y_score threshold positive_label
    group_order dropna_groups = Ok r ->
  let same_rate :=
    forall m1 m2, In m1 (by_group r) -> In m2 (by_group r) ->
                  feq (positive_rate m1) (positive_rate m2) in
  (feq (demographic_parity_difference (summary r)) (Fin 0) <->
   by_group r <> [] /\ same_rate) /\
  (feq (disparate_impact_ratio (summary r)) (Fin 1) <->
   (exists m, In m (by_group r) /\ ~ feq (positive_rate m) (Fin 0)) /\
   same_rate).
Proof.
  intros H. cbv zeta. apply from_arrays_inv in H.
  destruct H as [p [_ [_ [_ [_ ->]]]]].
  cbn [report_of_samples summary summary_of by_group
         demographic_parity_difference disparate_impact_ratio].
  set (rows := samples dropna_groups y_true p sensitive).
  destruct (table_positive_rates group_order positive_label rows
              (categories_of group_order (map s_group rows))) as [qs Hqs].
  fold (table_of group_order positive_label rows) in Hqs.
  set (tbl := table_of group_order positive_label rows) in *.
  destruct (parity_of_numbers tbl qs Hqs) as [Hd Hr].
  assert (Hin : forall x, In x qs <->
                          exists m, In m tbl /\ positive_rate m = Fin x).
  { intros x. split.
    - intros Hx. apply (in_map Fin) in Hx. rewrite <- Hqs in Hx.
      apply in_map_iff in Hx. destruct Hx as [m [E Hm]].
      exists m. split; assumption.
    - intros [m [Hm E]]. apply (in_map positive_rate) in Hm.
      rewrite Hqs, E in Hm. apply in_map_iff in Hm.
      destruct Hm as [y [Ey Hy]]. injection Ey as ->. exact Hy. }
  assert (Hfin : forall m, In m tbl ->
                           exists x, positive_rate m = Fin x /\ In x qs).
  { intros m Hm. pose proof (in_map positive_rate _ _ Hm) as Hx.
    rewrite Hqs in Hx. apply in_map_iff in Hx. destruct Hx as [x [E Hx]].
    exists x. split; [symmetry; exact E | exact Hx]. }
  assert (Hsame : (forall x y, In x qs -> In y qs -> (x == y)%Q) <->
                  (forall m1 m2, In m1 tbl -> In m2 tbl ->
                                 feq (positive_rate m1) (positive_rate m2))).
  { split.
    - intros E m1 m2 H1 H2.
      destruct (Hfin m1 H1) as [x [-> Hx]].
      destruct (Hfin m2 H2) as [y [-> Hy]]. cbn [feq]. apply E; assumption.
    - intros E x y Hx Hy. apply Hin in Hx. apply Hin in Hy.
      destruct Hx as [m1 [H1 E1]]. destruct Hy as [m2 [H2 E2]].
      pose proof (E m1 m2 H1 H2) as F. rewrite E1, E2 in F. exact F. }
  split.
  - rewrite Hd. split.
    + intros [Hne E]. split; [| apply Hsame; exact E].
      intros Et. apply Hne. rewrite Et in Hqs.
      destruct qs; [reflexivity | discriminate Hqs].
    + intros [Hne E]. split; [| apply Hsame; exact E].
      intros Eq. apply Hne. rewrite Eq in Hqs.
      destruct tbl; [reflexivity | discriminate Hqs].
  - rewrite Hr. split.
    + intros [[x [Hx Hnz]] E]. split; [| apply Hsame; exact E].
      apply Hin in Hx. destruct Hx as [m [Hm Em]].
      exists m. split; [exact Hm |]. rewrite Em. exact Hnz.
    + intros [[m [Hm Hnz]] E]. split; [| apply Hsame; exact E].
      destruct (Hfin m Hm) as [x [Ex Hx]].
      exists x. split; [exact Hx |]. rewrite Ex in Hnz. exact Hnz.
Qed.

Lemma parity_means_equal_rates_witness :
  exists r,
    from_arrays [VInt 1; VInt 0] (Some [VInt 1; VInt 1])
      [VStr "A"; VStr "B"] None None (VInt 1) None false = Ok r /\
    feq (demographic_parity_difference (summary r)) (Fin 0) /\
    forall m1 m2, In m1 (by_group r) -> In m2 (by_group r) ->
                  feq (positive_rate m1) (positive_rate m2).
Proof.
  destruct (from_arrays [VInt 1; VInt 0] (Some [VInt 1; VInt 1])
              [VStr "A"; VStr "B"] None None (VInt 1) None false)
    as [r | e] eqn:E; [| vm_compute in E; discriminate E].
  exists r. split; [reflexivity |].
  destruct (parity_means_equal_rates _ _ _ _ _ _ _ _ _ E) as [[Hd _] _].
  assert (Hz : feq (demographic_parity_difference (summary r)) (Fin 0))
    by (vm_compute in E; injection E as <-; reflexivity).
  split; [exact Hz | exact (proj2 (Hd Hz))].
Defined.
